(** * Ferro string runtime ([packages/ferro/src/runtime.c])

    A shallow embedding of the four entry points of the runtime
    ([fs_string_alloc], [fs_string_from_literal], [fs_string_concat],
    [fs_print_string]) over an explicit model of the C heap, and the
    properties of the runtime's specification stated against it.

    The C code is modelled as it is written:
    - [int] is a 32-bit two's complement integer, carried as a [Z] with
      the wrap-around of [+] written out ([int_add]);
    - a [char*] is null or a block identifier with a byte offset;
    - the heap maps block identifiers to arrays of cells, a cell being an
      initialised byte or the indeterminate value [malloc] leaves behind;
    - every access outside a live block is undefined behaviour, which the
      model reports as [None];
    - [malloc] may fail at any call, and always fails for a request
      larger than [PTRDIFF_MAX], which is where an [int] that wrapped to
      a negative value lands once converted to [size_t];
    - [fs_String*] arguments are references into a store of structs, so
      that "the inputs are not modified" is a statement about that store;
    - [printf] appends to the standard output of the state. *)

From Stdlib Require Import ZArith Lia.
From Stdlib.Strings Require Import Byte.
From stdpp Require Import base option list gmap.

Local Open Scope Z_scope.

(** ** Machine integers *)

Definition INT_MIN : Z := - 2 ^ 31.
Definition INT_MAX : Z := 2 ^ 31 - 1.

(** The value an [int] holds after a computation whose mathematical
    result is [z].  ISO C leaves signed overflow undefined; the model
    takes what the compiled code does, which is to wrap. *)
Definition wrap_int (z : Z) : Z := (z + 2 ^ 31) mod 2 ^ 32 - 2 ^ 31.

Definition int_add (a b : Z) : Z := wrap_int (a + b).

(** The target platform fixes the width of [size_t].  It is at least as
    wide as [int]. *)
Class Platform := {
  size_bits : Z;
  size_bits_ge : 32 <= size_bits
}.

(** The usual 64-bit target. *)
#[export] Instance LP64 : Platform :=
  {| size_bits := 64; size_bits_ge := ltac:(lia) |}.

(** Conversion of an [int] argument to [size_t]. *)
Definition to_size_t `{Platform} (z : Z) : Z := z mod 2 ^ size_bits.

(** No object is larger than [PTRDIFF_MAX] bytes. *)
Definition PTRDIFF_MAX `{Platform} : Z := 2 ^ (size_bits - 1) - 1.

(** ** Memory *)

Abbreviation block := positive (only parsing).

(** [char*]: [None] is the null pointer. *)
Definition char_ptr := option (block * Z).

Definition is_null (p : char_ptr) : bool :=
  match p with None => true | Some _ => false end.

(** [p + i] *)
Definition ptr_add (p : char_ptr) (i : Z) : char_ptr :=
  match p with Some (b, o) => Some (b, o + i) | None => None end.

Inductive memval :=
  | Undef
  | Val (b : byte).

(** [typedef struct { char* ptr; int len; int cap; } fs_String;] *)
Record fs_String := mk_fs_String {
  ptr : char_ptr;
  len : Z;
  cap : Z
}.

(** [s.len = n] *)
Definition set_len (s : fs_String) (n : Z) : fs_String :=
  {| ptr := ptr s; len := n; cap := cap s |}.

(** [fs_String*]: the address of a struct owned by the caller. *)
Abbreviation ref := positive (only parsing).

Record state := mk_state {
  mem : gmap positive (list memval);
  structs : gmap positive fs_String;
  stdout : list byte
}.

Definition with_mem (st : state) (m : gmap positive (list memval)) : state :=
  {| mem := m; structs := structs st; stdout := stdout st |}.
Definition with_structs (st : state) (r : gmap positive fs_String) : state :=
  {| mem := mem st; structs := r; stdout := stdout st |}.
Definition with_stdout (st : state) (o : list byte) : state :=
  {| mem := mem st; structs := structs st; stdout := o |}.

(** ** Computations: state passing, [None] for undefined behaviour *)

Definition M (A : Type) : Type := state -> option (A * state).

Definition ret {A} (a : A) : M A := fun st => Some (a, st).
Definition bind {A B} (m : M A) (k : A -> M B) : M B :=
  fun st => match m st with
            | Some (a, st') => k a st'
            | None => None
            end.

Declare Scope c_scope.
Delimit Scope c_scope with C.
Bind Scope c_scope with M.
Notation "x <- m ;; k" := (bind m (fun x => k))
  (at level 20, m at level 99, k at level 200, only parsing) : c_scope.
Notation "m ;; k" := (bind m (fun _ => k))
  (at level 100, k at level 200, only parsing, right associativity) : c_scope.
Local Open Scope c_scope.

(** *** The C library *)

(** The cells [o, o+n) of an array, when they lie inside it. *)
Definition read_cells (cells : list memval) (o n : Z) : option (list memval) :=
  if (0 <=? o) && (0 <=? n) && (o + n <=? Z.of_nat (length cells))
  then Some (take (Z.to_nat n) (drop (Z.to_nat o) cells))
  else None.

(** Overwriting the cells from offset [o] on with [vs]. *)
Definition write_cells (cells : list memval) (o : Z) (vs : list memval)
  : option (list memval) :=
  if (0 <=? o) && (o + Z.of_nat (length vs) <=? Z.of_nat (length cells))
  then Some (take (Z.to_nat o) cells ++ vs
             ++ drop (Z.to_nat o + length vs) cells)
  else None.

(** [malloc(n)], [n] already a [size_t].  Whether memory is available is
    the allocator's decision [avail]; a request above [PTRDIFF_MAX] is
    always refused.  A successful call returns the start of a fresh block
    of [n] indeterminate bytes. *)
Definition malloc `{Platform} (avail : bool) (n : Z) : M char_ptr :=
  fun st =>
    if avail && (n <=? PTRDIFF_MAX) then
      let b := fresh (dom (mem st)) in
      Some (Some (b, 0),
            with_mem st (<[b := replicate (Z.to_nat n) Undef]> (mem st)))
    else Some (None, st).

(** [p[i] = c] *)
Definition store_byte (p : char_ptr) (i : Z) (c : byte) : M unit :=
  fun st =>
    match p with
    | None => None
    | Some (b, o) =>
        match mem st !! b with
        | None => None
        | Some cells =>
            match write_cells cells (o + i) [Val c] with
            | None => None
            | Some cells' => Some (tt, with_mem st (<[b := cells']> (mem st)))
            end
        end
    end.

(** Whether the [n]-byte ranges starting at two pointers share a byte. *)
Definition overlap (dst src : block * Z) (n : Z) : bool :=
  bool_decide (dst.1 = src.1) && (0 <? n)
  && (dst.2 <? src.2 + n) && (src.2 <? dst.2 + n).

(** [memcpy(dst, src, n)], [n] already a [size_t]. *)
Definition memcpy (dst src : char_ptr) (n : Z) : M unit :=
  fun st =>
    match dst, src with
    | Some d, Some s =>
        match mem st !! s.1, mem st !! d.1 with
        | Some from, Some to =>
            match read_cells from s.2 n with
            | None => None
            | Some vs =>
                if overlap d s n then None
                else match write_cells to d.2 vs with
                     | None => None
                     | Some to' =>
                         Some (tt, with_mem st (<[d.1 := to']> (mem st)))
                     end
            end
        | _, _ => None
        end
    | _, _ => None
    end.

(** What [printf("%.*s", prec, p)] writes, reading the array [cells]
    that starts at [p]: bytes up to the first zero byte, and at most
    [prec] of them; a negative precision ([None]) is taken as absent.
    Reading past the array or an indeterminate byte is undefined. *)
Fixpoint printf_s (prec : option nat) (cells : list memval)
  : option (list byte) :=
  match prec with
  | Some O => Some []
  | _ =>
      match cells with
      | [] => None
      | Undef :: _ => None
      | Val c :: rest =>
          if Byte.eqb c x00 then Some []
          else match printf_s (Nat.pred <$> prec) rest with
               | Some out => Some (c :: out)
               | None => None
               end
      end
  end.

Definition precision (n : Z) : option nat :=
  if n <? 0 then None else Some (Z.to_nat n).

(** Writing bytes to the standard output. *)
Definition put_bytes (out : list byte) : M unit :=
  fun st => Some (tt, with_stdout st (stdout st ++ out)).

Definition newline : byte := x0a.

(** [printf("%.*s\n", n, p)] *)
Definition printf_prec_s_nl (n : Z) (p : char_ptr) : M unit :=
  fun st =>
    match p with
    | None => None
    | Some (b, o) =>
        match mem st !! b with
        | None => None
        | Some cells =>
            if (0 <=? o) && (o <=? Z.of_nat (length cells)) then
              match printf_s (precision n) (drop (Z.to_nat o) cells) with
              | Some out => put_bytes (out ++ [newline]) st
              | None => None
              end
            else None
        end
    end.

(** The bytes of the text [(null)]. *)
Definition null_text : list byte := [x28; x6e; x75; x6c; x6c; x29].

(** [*r], for [r] an [fs_String*]. *)
Definition deref (r : ref) : M fs_String :=
  fun st => match structs st !! r with
            | Some s => Some (s, st)
            | None => None
            end.

(** [*r = s], the caller keeping a returned struct. *)
Definition assign (r : ref) (s : fs_String) : M unit :=
  fun st => Some (tt, with_structs st (<[r := s]> (structs st))).

(** ** The runtime *)

(** Each entry point performs one [malloc]; [avail] is the allocator's
    answer to it. *)

Section Runtime.
Context `{Platform}.

(** [[
  fs_String s;
  s.ptr = (char* )malloc(size + 1);
  s.len = 0;
  s.cap = size;
  if (s.ptr) s.ptr[0] = '\0';
  return s;
]] *)
Definition fs_string_alloc (avail : bool) (size : Z) : M fs_String :=
  p <- malloc avail (to_size_t (int_add size 1)) ;;
  let s := {| ptr := p; len := 0; cap := size |} in
  (if is_null (ptr s) then ret tt else store_byte (ptr s) 0 x00) ;;
  ret s.

(** [[
  fs_String s = fs_string_alloc(len);
  if (s.ptr) {
    memcpy(s.ptr, data, len);
    s.ptr[len] = '\0';
    s.len = len;
  }
  return s;
]] *)
Definition fs_string_from_literal (avail : bool) (data : char_ptr) (len : Z)
  : M fs_String :=
  s <- fs_string_alloc avail len ;;
  if is_null (ptr s) then ret s
  else
    memcpy (ptr s) data (to_size_t len) ;;
    store_byte (ptr s) len x00 ;;
    ret (set_len s len).

(** [[
  int new_len = s1->len + s2->len;
  fs_String s = fs_string_alloc(new_len);
  if (s.ptr) {
    if (s1->ptr) memcpy(s.ptr, s1->ptr, s1->len);
    if (s2->ptr) memcpy(s.ptr + s1->len, s2->ptr, s2->len);
    s.ptr[new_len] = '\0';
    s.len = new_len;
  }
  return s;
]] *)
Definition fs_string_concat (avail : bool) (s1 s2 : ref) : M fs_String :=
  x <- deref s1 ;;
  y <- deref s2 ;;
  let new_len := int_add (len x) (len y) in
  s <- fs_string_alloc avail new_len ;;
  if is_null (ptr s) then ret s
  else
    (if is_null (ptr x) then ret tt
     else memcpy (ptr s) (ptr x) (to_size_t (len x))) ;;
    (if is_null (ptr y) then ret tt
     else memcpy (ptr_add (ptr s) (len x)) (ptr y) (to_size_t (len y))) ;;
    store_byte (ptr s) new_len x00 ;;
    ret (set_len s new_len).

(** [[
  if (s->ptr) printf("%.*s\n", s->len, s->ptr);
  else printf("(null)\n");
]] *)
Definition fs_print_string (s : ref) : M unit :=
  x <- deref s ;;
  if is_null (ptr x) then put_bytes (null_text ++ [newline])
  else printf_prec_s_nl (len x) (ptr x).

End Runtime.

(** ** Observations on a state *)

(** The [n] cells starting [o] bytes after [p]. *)
Definition read_at (st : state) (p : char_ptr) (o n : Z)
  : option (list memval) :=
  match p with
  | None => None
  | Some (b, o0) =>
      match mem st !! b with
      | Some cells => read_cells cells (o0 + o) n
      | None => None
      end
  end.

(** The cell [p[i]]. *)
Definition byte_at (st : state) (p : char_ptr) (i : Z) : option memval :=
  match read_at st p i 1 with
  | Some [v] => Some v
  | _ => None
  end.

(** The content of a String Value: the [len] cells of its buffer; a
    value with a null handle has no content. *)
Definition content (st : state) (s : fs_String) : option (list memval) :=
  if is_null (ptr s) then Some [] else read_at st (ptr s) 0 (len s).

(** [s] is a String Value of the state with content [c]: its length is
    a non-negative [int] and, unless its handle is null, its buffer
    holds [len s] readable cells. *)
Definition string_value (st : state) (s : fs_String) (c : list memval)
  : Prop :=
  0 <= len s <= INT_MAX /\ content st s = Some c.

(** The block the next successful [malloc] returns. *)
Definition fresh_block (st : state) : block := fresh (dom (mem st)).

(** What [fs_string_alloc] leaves in a new buffer of capacity [n]: the
    terminator, then [n] indeterminate cells. *)
Definition fresh_cells (n : Z) : list memval :=
  Val x00 :: replicate (Z.to_nat n) Undef.

(** The bytes [printf] emits for [bs] under [%s]: those before the
    first zero byte. *)
Fixpoint until_zero (bs : list byte) : list byte :=
  match bs with
  | [] => []
  | c :: rest => if Byte.eqb c x00 then [] else c :: until_zero rest
  end.

(** The cells of the buffer [fs_string_concat] builds from inputs [x]
    and [y] with contents [cx] and [cy]: a range whose input has a null
    handle is skipped by the copy and keeps what [fs_string_alloc] left
    there. *)
Definition concat_cells (x y : fs_String) (cx cy : list memval)
  : list memval :=
  let base := fresh_cells (len x + len y) in
  (if is_null (ptr x) then take (Z.to_nat (len x)) base else cx)
  ++ (if is_null (ptr y)
      then take (Z.to_nat (len y)) (drop (Z.to_nat (len x)) base)
      else cy)
  ++ [Val x00].

(** [st'] keeps the structs, the output and every block of [st], each
    block with the cells it had: nothing was freed or overwritten. *)
Definition preserves (st st' : state) : Prop :=
  structs st' = structs st
  /\ stdout st' = stdout st
  /\ forall b cells, mem st !! b = Some cells -> mem st' !! b = Some cells.

(** *** Callers *)



(** [fs_string_from_literal] twice, [fs_string_concat], then
    [fs_print_string], each result kept at a reference of its own. *)
Definition literal_concat_print `{Platform} (d1 : char_ptr) (n1 : Z)
    (d2 : char_ptr) (n2 : Z) (a b c : ref) : M fs_String :=
  x <- fs_string_from_literal true d1 n1 ;;
  assign a x ;;
  y <- fs_string_from_literal true d2 n2 ;;
  assign b y ;;
  r <- fs_string_concat true a b ;;
  assign c r ;;
  fs_print_string c ;;
  ret r.

(** [fs_string_alloc], then [fs_print_string]. *)
Definition alloc_print `{Platform} (avail : bool) (n : Z) (a : ref)
  : M fs_String :=
  x <- fs_string_alloc avail n ;;
  assign a x ;;
  fs_print_string a ;;
  ret x.

(** [fs_string_from_literal], then [fs_print_string]. *)
Definition literal_print `{Platform} (avail : bool) (data : char_ptr)
    (n : Z) (a : ref) : M fs_String :=
  x <- fs_string_from_literal avail data n ;;
  assign a x ;;
  fs_print_string a ;;
  ret x.

(** [fs_string_concat], then [fs_print_string]. *)
Definition concat_print `{Platform} (avail : bool) (s1 s2 t : ref)
  : M fs_String :=
  r <- fs_string_concat avail s1 s2 ;;
  assign t r ;;
  fs_print_string t ;;
  ret r.

(** *** Values made by the runtime *)

(** [s], with state [st'], is what one of the three constructors
    returned from state [st], called with [int] arguments, a readable
    literal and String Values. *)
Inductive constructed `{Platform} (st : state) (s : fs_String) (st' : state)
  : Prop :=
  | by_alloc avail size :
      INT_MIN <= size <= INT_MAX ->
      fs_string_alloc avail size st = Some (s, st') ->
      constructed st s st'
  | by_from_literal avail data n vs :
      0 <= n <= INT_MAX ->
      read_at st data 0 n = Some vs ->
      fs_string_from_literal avail data n st = Some (s, st') ->
      constructed st s st'
  | by_concat avail s1 s2 x y cx cy :
      structs st !! s1 = Some x ->
      structs st !! s2 = Some y ->
      string_value st x cx ->
      string_value st y cy ->
      fs_string_concat avail s1 s2 st = Some (s, st') ->
      constructed st s st'.

(** [s] owns a buffer of [st'] that did not exist in [st]: its handle
    is the start of a block allocated since, of [cap s + 1] bytes, with
    the terminator at offset [len s]. *)
Definition owns_buffer (st st' : state) (s : fs_String) : Prop :=
  exists b cells,
    ptr s = Some (b, 0)
    /\ mem st !! b = None
    /\ mem st' !! b = Some cells
    /\ Z.of_nat (length cells) = cap s + 1
    /\ 0 <= len s <= cap s
    /\ byte_at st' (ptr s) (len s) = Some (Val x00).

(** The text [fs_print_string] writes for the struct [x], read from the
    buffers of [st]. *)
Definition print_text (st : state) (x : fs_String) : option (list byte) :=
  match ptr x with
  | None => Some (null_text ++ [newline])
  | Some (b, o) =>
      match mem st !! b with
      | None => None
      | Some cells =>
          if (0 <=? o) && (o <=? Z.of_nat (length cells)) then
            match printf_s (precision (len x)) (drop (Z.to_nat o) cells) with
            | Some out => Some (out ++ [newline])
            | None => None
            end
          else None
      end
  end.

(** *** Sample states *)

Definition empty_state : state :=
  {| mem := ∅; structs := ∅; stdout := [] |}.

(** A null-handle value with recorded length 1 at reference 1, and the
    one-byte string [a] at reference 2. *)
Definition null_len1 : fs_String := {| ptr := None; len := 1; cap := 0 |}.
Definition str_a : fs_String := {| ptr := Some (1%positive, 0); len := 1; cap := 1 |}.
Definition null_state : state :=
  {| mem := {[ 1%positive := [Val "a"%byte; Val x00] ]};
     structs := {[ 1%positive := null_len1; 2%positive := str_a ]};
     stdout := [] |}.

(** The three-byte string [a], zero, [b] at reference 1. *)
Definition str_a0b : fs_String :=
  {| ptr := Some (1%positive, 0); len := 3; cap := 3 |}.
Definition zero_state : state :=
  {| mem := {[ 1%positive := [Val "a"%byte; Val x00; Val "b"%byte; Val x00] ]};
     structs := {[ 1%positive := str_a0b ]};
     stdout := [] |}.

(** The strings [foo], [bar] and [!] at references 1, 2 and 3. *)
Definition str_foo : fs_String :=
  {| ptr := Some (1%positive, 0); len := 3; cap := 3 |}.
Definition str_bar : fs_String :=
  {| ptr := Some (2%positive, 0); len := 3; cap := 3 |}.
Definition str_bang : fs_String :=
  {| ptr := Some (3%positive, 0); len := 1; cap := 1 |}.
Definition foo_bar_state : state :=
  {| mem := {[ 1%positive := [Val "f"%byte; Val "o"%byte; Val "o"%byte; Val x00];
               2%positive := [Val "b"%byte; Val "a"%byte; Val "r"%byte; Val x00];
               3%positive := [Val "!"%byte; Val x00] ]};
     structs := {[ 1%positive := str_foo; 2%positive := str_bar;
                   3%positive := str_bang ]};
     stdout := [] |}.

(** Two null-handle values whose recorded lengths sum past [INT_MAX],
    at references 1 and 2. *)
Definition null_max : fs_String := {| ptr := None; len := INT_MAX; cap := 0 |}.
Definition overflow_state : state :=
  {| mem := ∅;
     structs := {[ 1%positive := null_max; 2%positive := null_len1 ]};
     stdout := [] |}.

(** The string [a] at reference 1 and a null-handle value of recorded
    length 1 at reference 2. *)
Definition null_second_state : state :=
  {| mem := {[ 1%positive := [Val "a"%byte; Val x00] ]};
     structs := {[ 1%positive := str_a; 2%positive := null_len1 ]};
     stdout := [] |}.

(** ** Arithmetic of [int] and [size_t] *)

Lemma wrap_int_id z : INT_MIN <= z <= INT_MAX -> wrap_int z = z.
Proof.
  unfold INT_MIN, INT_MAX, wrap_int. intros Hz.
  rewrite Z.mod_small; lia.
Qed.

Lemma wrap_int_high z :
  INT_MAX < z <= 2 * INT_MAX -> wrap_int z = z - 2 ^ 32.
Proof.
  unfold INT_MAX, wrap_int. intros Hz.
  replace (z + 2 ^ 31) with ((z - 2 ^ 31) + 1 * 2 ^ 32) by lia.
  rewrite Z.mod_add by lia. rewrite Z.mod_small; lia.
Qed.

Section Arith.
Context `{Platform}.

Lemma pow_size_bits : 2 ^ size_bits = 2 * 2 ^ (size_bits - 1).
Proof.
  pose proof size_bits_ge.
  rewrite <- Z.pow_succ_r by lia. f_equal. lia.
Qed.

Lemma pow_size_bits_ge : 2 ^ 31 <= 2 ^ (size_bits - 1).
Proof. pose proof size_bits_ge. apply Z.pow_le_mono_r; lia. Qed.

Lemma to_size_t_nonneg z : 0 <= z <= INT_MAX -> to_size_t z = z.
Proof.
  unfold INT_MAX, to_size_t. intros Hz.
  pose proof pow_size_bits. pose proof pow_size_bits_ge.
  apply Z.mod_small. lia.
Qed.

Lemma to_size_t_neg z :
  INT_MIN <= z < 0 -> to_size_t z = z + 2 ^ size_bits.
Proof.
  unfold INT_MIN, to_size_t. intros Hz.
  pose proof pow_size_bits. pose proof pow_size_bits_ge.
  replace z with ((z + 2 ^ size_bits) + (-1) * 2 ^ size_bits) at 1 by lia.
  rewrite Z.mod_add by lia. apply Z.mod_small. lia.
Qed.

(** The size [fs_string_alloc] requests fits an object exactly when the
    requested capacity is a non-negative [int] below [INT_MAX]. *)
Lemma alloc_size_fits size :
  INT_MIN <= size <= INT_MAX ->
  (to_size_t (int_add size 1) <=? PTRDIFF_MAX)
  = (-1 <=? size) && (size <? INT_MAX).
Proof.
  intros Hs. unfold int_add.
  pose proof pow_size_bits. pose proof pow_size_bits_ge.
  destruct (Z.eq_dec size INT_MAX) as [->|Hne].
  - rewrite wrap_int_high by (unfold INT_MAX; lia).
    rewrite to_size_t_neg by (unfold INT_MIN, INT_MAX; lia).
    unfold PTRDIFF_MAX, INT_MAX in *. lia.
  - rewrite wrap_int_id by (unfold INT_MIN, INT_MAX in *; lia).
    destruct (Z_lt_le_dec (size + 1) 0).
    + rewrite to_size_t_neg by (unfold INT_MIN, INT_MAX in *; lia).
      unfold PTRDIFF_MAX, INT_MIN, INT_MAX in *. lia.
    + rewrite to_size_t_nonneg by (unfold INT_MIN, INT_MAX in *; lia).
      unfold PTRDIFF_MAX, INT_MIN, INT_MAX in *. lia.
Qed.

Lemma alloc_size_value size :
  -1 <= size < INT_MAX -> to_size_t (int_add size 1) = size + 1.
Proof.
  intros Hs. unfold int_add.
  rewrite wrap_int_id by (unfold INT_MIN, INT_MAX in *; lia).
  apply to_size_t_nonneg. lia.
Qed.

End Arith.

(** ** Arrays of cells *)

(** Bounds checks written with boolean comparisons. *)
Ltac bounds :=
  rewrite ?andb_true_iff, ?andb_false_iff, ?Z.leb_le, ?Z.ltb_lt,
    ?Z.leb_gt, ?Z.ltb_ge in *; lia.

Lemma read_cells_Some cells o n vs :
  read_cells cells o n = Some vs ->
  0 <= o /\ 0 <= n /\ o + n <= Z.of_nat (length cells)
  /\ vs = take (Z.to_nat n) (drop (Z.to_nat o) cells).
Proof.
  unfold read_cells. case_match eqn:Hc; [|done].
  apply andb_prop in Hc as [[Ho Hn]%andb_prop Hb].
  intros [= <-]. split; [lia|]. split; [lia|]. split; [lia|]. reflexivity.
Qed.

Lemma read_cells_length cells o n vs :
  read_cells cells o n = Some vs -> Z.of_nat (length vs) = n.
Proof.
  intros (Ho & Hn & Hb & ->)%read_cells_Some.
  rewrite length_take, length_drop. lia.
Qed.

Lemma read_cells_mid (P Q R : list memval) o n :
  o = Z.of_nat (length P) -> n = Z.of_nat (length Q) ->
  read_cells (P ++ Q ++ R) o n = Some Q.
Proof.
  intros -> ->. unfold read_cells.
  rewrite !length_app, !Nat2Z.id.
  case_match eqn:Hc; [|bounds].
  rewrite drop_app_length, take_app_length. done.
Qed.

Lemma write_cells_mid (P Q R vs : list memval) o :
  o = Z.of_nat (length P) -> length vs = length Q ->
  write_cells (P ++ Q ++ R) o vs = Some (P ++ vs ++ R).
Proof.
  intros -> Hl. unfold write_cells.
  rewrite !length_app, !Nat2Z.id.
  case_match eqn:Hc; [|bounds].
  rewrite take_app_length, Hl, <- drop_drop.
  by rewrite !drop_app_length.
Qed.

(** A fresh buffer seen as the three ranges [fs_string_concat] writes. *)
Lemma fresh_cells_split lx ly :
  0 <= lx -> 0 <= ly ->
  exists t,
    fresh_cells (lx + ly)
    = take (Z.to_nat lx) (fresh_cells (lx + ly))
      ++ take (Z.to_nat ly) (drop (Z.to_nat lx) (fresh_cells (lx + ly)))
      ++ [t].
Proof.
  intros Hx Hy.
  set (base := fresh_cells (lx + ly)).
  assert (Hlen : length base = S (Z.to_nat lx + Z.to_nat ly)).
  { unfold base, fresh_cells. simpl. rewrite length_replicate. lia. }
  clearbody base.
  destruct (drop (Z.to_nat ly) (drop (Z.to_nat lx) base)) as [|t tl] eqn:Hd.
  - apply (f_equal length) in Hd. rewrite !length_drop in Hd. simpl in Hd. lia.
  - assert (tl = []) as ->.
    { apply (f_equal length) in Hd. rewrite !length_drop in Hd. simpl in Hd.
      apply nil_length_inv. lia. }
    exists t. rewrite <- Hd, !take_drop. done.
Qed.

Lemma length_take_fresh lx ly :
  0 <= lx -> 0 <= ly ->
  length (take (Z.to_nat lx) (fresh_cells (lx + ly))) = Z.to_nat lx.
Proof.
  intros. rewrite length_take. unfold fresh_cells. simpl.
  rewrite length_replicate. lia.
Qed.

Lemma length_take_drop_fresh lx ly :
  0 <= lx -> 0 <= ly ->
  length (take (Z.to_nat ly) (drop (Z.to_nat lx) (fresh_cells (lx + ly))))
  = Z.to_nat ly.
Proof.
  intros. rewrite length_take, length_drop. unfold fresh_cells. simpl.
  rewrite length_replicate. lia.
Qed.

(** ** Steps on a state *)

Lemma fresh_block_None st : mem st !! fresh_block st = None.
Proof. unfold fresh_block. apply not_elem_of_dom. apply is_fresh. Qed.

Lemma with_mem_insert st b (c c' : list memval) :
  with_mem (with_mem st (<[b := c]> (mem st)))
           (<[b := c']> (mem (with_mem st (<[b := c]> (mem st)))))
  = with_mem st (<[b := c']> (mem st)).
Proof. unfold with_mem. simpl. by rewrite insert_insert_eq. Qed.

(** [p[i] = c] on the block being built. *)
Lemma store_into st b cells i c cells' :
  write_cells cells i [Val c] = Some cells' ->
  store_byte (Some (b, 0)) i c (with_mem st (<[b := cells]> (mem st)))
  = Some (tt, with_mem st (<[b := cells']> (mem st))).
Proof.
  intros Hw. unfold store_byte.
  replace (mem (with_mem st (<[b := cells]> (mem st))) !! b)
    with (Some cells) by (simpl; by rewrite lookup_insert_eq).
  rewrite Z.add_0_l, Hw. by rewrite with_mem_insert.
Qed.

(** [memcpy] from a block of the old state into the block being built. *)
Lemma memcpy_into st b cells o bs os n from vs cells' :
  mem st !! b = None ->
  mem st !! bs = Some from ->
  read_cells from os n = Some vs ->
  write_cells cells o vs = Some cells' ->
  memcpy (Some (b, o)) (Some (bs, os)) n
         (with_mem st (<[b := cells]> (mem st)))
  = Some (tt, with_mem st (<[b := cells']> (mem st))).
Proof.
  intros Hb Hs Hr Hw.
  assert (b <> bs) as Hne by (intros ->; rewrite Hb in Hs; discriminate).
  unfold memcpy. cbn [fst snd].
  replace (mem (with_mem st (<[b := cells]> (mem st))) !! bs)
    with (Some from) by (simpl; by rewrite lookup_insert_ne).
  replace (mem (with_mem st (<[b := cells]> (mem st))) !! b)
    with (Some cells) by (simpl; by rewrite lookup_insert_eq).
  rewrite Hr. unfold overlap. cbn [fst snd].
  rewrite bool_decide_eq_false_2 by done. cbn [andb].
  rewrite Hw. by rewrite with_mem_insert.
Qed.

(** ** What each entry point computes *)

Section Runs.
Context `{Platform}.

Lemma alloc_run avail size st :
  INT_MIN <= size <= INT_MAX -> size <> -1 ->
  fs_string_alloc avail size st
  = Some (if avail && (0 <=? size) && (size <? INT_MAX)
          then ({| ptr := Some (fresh_block st, 0); len := 0; cap := size |},
                with_mem st (<[fresh_block st := fresh_cells size]> (mem st)))
          else ({| ptr := None; len := 0; cap := size |}, st)).
Proof.
  intros Hs Hm. unfold fs_string_alloc, bind, malloc.
  rewrite alloc_size_fits by done.
  replace (-1 <=? size) with (0 <=? size) by lia.
  rewrite andb_assoc.
  destruct (avail && (0 <=? size) && (size <? INT_MAX)) eqn:Hok; [|done].
  cbn [ptr is_null]. fold (fresh_block st).
  rewrite alloc_size_value by bounds.
  replace (Z.to_nat (size + 1)) with (S (Z.to_nat size)) by bounds.
  rewrite (store_into st _ _ 0 x00 (fresh_cells size)); [done|].
  apply (write_cells_mid [] [Undef] _ [Val x00]); done.
Qed.

(** A failed allocation leaves the state alone, whatever the size. *)
Lemma alloc_failed avail size st st' :
  malloc avail (to_size_t (int_add size 1)) st = Some (None, st') ->
  fs_string_alloc avail size st
  = Some ({| ptr := None; len := 0; cap := size |}, st).
Proof.
  unfold fs_string_alloc, bind. intros Hm. rewrite Hm.
  unfold malloc in Hm. case_match; [done|].
  by injection Hm as <-.
Qed.

(** One guarded copy of [fs_string_concat] or the copy of
    [fs_string_from_literal]: the range [Q] of the block being built
    receives the content of [s], or is skipped when [s] has no buffer. *)
Lemma copy_step st b (P Q R : list memval) s c :
  mem st !! b = None ->
  string_value st s c ->
  length Q = Z.to_nat (len s) ->
  (if is_null (ptr s) then ret tt
   else memcpy (Some (b, Z.of_nat (length P))) (ptr s) (to_size_t (len s)))
    (with_mem st (<[b := P ++ Q ++ R]> (mem st)))
  = Some (tt, with_mem st
                (<[b := P ++ (if is_null (ptr s) then Q else c) ++ R]>
                   (mem st))).
Proof.
  intros Hb [Hl Hc] HQ. unfold content in Hc.
  destruct (ptr s) as [[bs os]|] eqn:Hp; cbn [is_null] in *; [|done].
  unfold read_at in Hc.
  destruct (mem st !! bs) as [from|] eqn:Hs; [|done].
  rewrite to_size_t_nonneg by done.
  pose proof (read_cells_length _ _ _ _ Hc) as Hlc.
  apply (memcpy_into st b _ _ bs os (len s) from c); try done.
  - by rewrite Z.add_0_r in Hc.
  - apply write_cells_mid; [done|lia].
Qed.

Lemma fresh_cells_parts lx ly :
  0 <= lx -> 0 <= ly ->
  exists A B t,
    fresh_cells (lx + ly) = A ++ B ++ [t]
    /\ A = take (Z.to_nat lx) (fresh_cells (lx + ly))
    /\ B = take (Z.to_nat ly) (drop (Z.to_nat lx) (fresh_cells (lx + ly)))
    /\ length A = Z.to_nat lx /\ length B = Z.to_nat ly.
Proof.
  intros Hx Hy. destruct (fresh_cells_split lx ly Hx Hy) as [t Ht].
  eexists _, _, t. split; [exact Ht|]. split; [done|]. split; [done|].
  split; [by apply length_take_fresh | by apply length_take_drop_fresh].
Qed.

Lemma from_literal_run avail data n st vs :
  0 <= n <= INT_MAX ->
  read_at st data 0 n = Some vs ->
  fs_string_from_literal avail data n st
  = Some (if avail && (n <? INT_MAX)
          then ({| ptr := Some (fresh_block st, 0); len := n; cap := n |},
                with_mem st (<[fresh_block st := vs ++ [Val x00]]> (mem st)))
          else ({| ptr := None; len := 0; cap := n |}, st)).
Proof.
  intros Hn Hr. unfold fs_string_from_literal, bind.
  rewrite alloc_run by (unfold INT_MIN, INT_MAX in *; lia).
  replace (0 <=? n) with true by lia. rewrite andb_true_r.
  destruct (avail && (n <? INT_MAX)) eqn:Hok; [|done].
  cbn [ptr is_null set_len len cap].
  destruct data as [[bd od]|]; [|done].
  destruct (fresh_cells_parts 0 n) as (A & B & t & Hbase & _ & _ & HA & HB);
    [lia..|].
  apply nil_length_inv in HA as ->.
  rewrite Z.add_0_l in Hbase. rewrite Hbase. cbn [app].
  pose proof (copy_step st (fresh_block st) [] B [t]
                {| ptr := Some (bd, od); len := n; cap := 0 |} vs
                (fresh_block_None st)) as Hcopy.
  cbn [ptr len is_null length app] in Hcopy.
  change (Z.of_nat 0) with 0 in Hcopy.
  rewrite Hcopy; [|by split|done].
  assert (Z.of_nat (length vs) = n) as Hl.
  { unfold read_at in Hr. destruct (mem st !! bd); [|done].
    by apply read_cells_length in Hr. }
  rewrite (store_into st _ _ n x00 (vs ++ [Val x00])); [done|].
  apply (write_cells_mid vs [t] [] [Val x00]); [lia|done].
Qed.

Lemma concat_run avail s1 s2 st x y cx cy :
  structs st !! s1 = Some x ->
  structs st !! s2 = Some y ->
  string_value st x cx ->
  string_value st y cy ->
  fs_string_concat avail s1 s2 st
  = Some (if avail && (len x + len y <? INT_MAX)
          then ({| ptr := Some (fresh_block st, 0);
                   len := len x + len y; cap := len x + len y |},
                with_mem st (<[fresh_block st := concat_cells x y cx cy]>
                               (mem st)))
          else ({| ptr := None; len := 0; cap := int_add (len x) (len y) |},
                st)).
Proof.
  intros Hs1 Hs2 Hx Hy.
  pose proof Hx as [Hlx _]. pose proof Hy as [Hly _].
  unfold fs_string_concat, bind, deref. rewrite Hs1, Hs2.
  destruct (Z_le_gt_dec (len x + len y) INT_MAX) as [Hfit|Hover].
  - unfold int_add. rewrite wrap_int_id by (unfold INT_MIN, INT_MAX in *; lia).
    rewrite alloc_run by (unfold INT_MIN, INT_MAX in *; lia).
    replace (0 <=? len x + len y) with true by lia. rewrite andb_true_r.
    destruct (avail && (len x + len y <? INT_MAX)) eqn:Hok; [|done].
    cbn [ptr is_null set_len len cap ptr_add].
    destruct (fresh_cells_parts (len x) (len y))
      as (A & B & t & Hbase & EA & EB & HA & HB); [lia..|].
    unfold concat_cells. cbn zeta. rewrite <- EA, <- EB, Hbase.
    pose proof (copy_step st (fresh_block st) [] A (B ++ [t]) x cx
                  (fresh_block_None st) Hx HA) as Hcopy.
    cbn [app] in Hcopy. change (Z.of_nat (length [])) with 0 in Hcopy.
    rewrite Hcopy. clear Hcopy.
    set (X := if is_null (ptr x) then A else cx).
    assert (Z.of_nat (length X) = len x) as HX.
    { unfold X. destruct Hx as [_ Hc]. unfold content in Hc.
      destruct (is_null (ptr x)); [lia|].
      unfold read_at in Hc. destruct (ptr x) as [[bx ox]|]; [|done].
      destruct (mem st !! bx); [|done]. by apply read_cells_length in Hc. }
    cbn [app]. rewrite Z.add_0_l, <- HX.
    rewrite (copy_step st (fresh_block st) X B [t] y cy);
      [|apply fresh_block_None|done..].
    set (Y := if is_null (ptr y) then B else cy).
    assert (Z.of_nat (length Y) = len y) as HY.
    { unfold Y. destruct Hy as [_ Hc]. unfold content in Hc.
      destruct (is_null (ptr y)); [lia|].
      unfold read_at in Hc. destruct (ptr y) as [[bx ox]|]; [|done].
      destruct (mem st !! bx); [|done]. by apply read_cells_length in Hc. }
    rewrite (store_into st _ _ _ x00 (X ++ Y ++ [Val x00])); [by rewrite HX|].
    rewrite !(app_assoc X).
    apply (write_cells_mid (X ++ Y) [t] [] [Val x00]); [|done].
    rewrite length_app. lia.
  - unfold int_add.
    rewrite wrap_int_high by (unfold INT_MAX in *; lia).
    rewrite alloc_run by (unfold INT_MIN, INT_MAX in *; lia).
    replace (0 <=? len x + len y - 2 ^ 32) with false
      by (unfold INT_MAX in *; lia).
    replace (len x + len y <? INT_MAX) with false by lia.
    by rewrite andb_false_r.
Qed.

End Runs.

(** ** Reading the results back *)

Lemma read_at_cells st b (P Q R : list memval) o n :
  mem st !! b = Some (P ++ Q ++ R) ->
  o = Z.of_nat (length P) -> n = Z.of_nat (length Q) ->
  read_at st (Some (b, 0)) o n = Some Q.
Proof.
  intros Hb Ho Hn. unfold read_at. rewrite Hb, Z.add_0_l.
  by apply read_cells_mid.
Qed.

Lemma byte_at_cells st b (P R : list memval) v i :
  mem st !! b = Some (P ++ [v] ++ R) ->
  i = Z.of_nat (length P) ->
  byte_at st (Some (b, 0)) i = Some v.
Proof.
  intros Hb Hi. unfold byte_at.
  by rewrite (read_at_cells st b P [v] R).
Qed.

Lemma string_value_length st s c :
  string_value st s c -> is_null (ptr s) = false ->
  Z.of_nat (length c) = len s.
Proof.
  intros [_ Hc] Hn. unfold content in Hc. rewrite Hn in Hc.
  unfold read_at in Hc. destruct (ptr s) as [[b o]|]; [|done].
  destruct (mem st !! b); [|done]. by apply read_cells_length in Hc.
Qed.

Lemma preserves_refl st : preserves st st.
Proof. by repeat split. Qed.

Lemma preserves_build st b cells :
  mem st !! b = None ->
  preserves st (with_mem st (<[b := cells]> (mem st))).
Proof.
  intros Hb. repeat split. intros b' cells' Hb'. cbn [mem with_mem].
  rewrite lookup_insert_ne; [done|]. intros ->. rewrite Hb in Hb'. done.
Qed.

Lemma preserves_read_at st st' p o n vs :
  preserves st st' ->
  read_at st p o n = Some vs -> read_at st' p o n = Some vs.
Proof.
  intros (_ & _ & Hm). unfold read_at. destruct p as [[b o0]|]; [|done].
  destruct (mem st !! b) as [cells|] eqn:Hb; [|done].
  by rewrite (Hm _ _ Hb).
Qed.

Lemma preserves_string_value st st' s c :
  preserves st st' -> string_value st s c -> string_value st' s c.
Proof.
  intros Hp [Hl Hc]. split; [done|]. unfold content in *.
  destruct (is_null (ptr s)); [done|]. by apply (preserves_read_at st).
Qed.


Lemma concat_cells_parts st x y cx cy :
  string_value st x cx -> string_value st y cy ->
  exists X Y,
    concat_cells x y cx cy = X ++ Y ++ [Val x00]
    /\ Z.of_nat (length X) = len x /\ Z.of_nat (length Y) = len y
    /\ X = (if is_null (ptr x)
            then take (Z.to_nat (len x)) (fresh_cells (len x + len y))
            else cx)
    /\ Y = (if is_null (ptr y)
            then take (Z.to_nat (len y))
                      (drop (Z.to_nat (len x)) (fresh_cells (len x + len y)))
            else cy).
Proof.
  intros Hx Hy. eexists _, _. split; [reflexivity|].
  pose proof Hx as [Hlx _]. pose proof Hy as [Hly _].
  split; [|split; [|done]].
  - destruct (is_null (ptr x)) eqn:Hn.
    + rewrite length_take_fresh; lia.
    + by apply (string_value_length st).
  - destruct (is_null (ptr y)) eqn:Hn.
    + rewrite length_take_drop_fresh; lia.
    + by apply (string_value_length st).
Qed.

Section Specs.
Context `{Platform}.

(** [fs_string_concat] on two String Values always returns; the new
    state preserves the old one; a non-null result owns a buffer holding
    [concat_cells]. *)
Lemma concat_spec avail s1 s2 st x y cx cy :
  structs st !! s1 = Some x ->
  structs st !! s2 = Some y ->
  string_value st x cx ->
  string_value st y cy ->
  exists r st',
    fs_string_concat avail s1 s2 st = Some (r, st')
    /\ preserves st st'
    /\ (is_null (ptr r) = true -> len r = 0)
    /\ (is_null (ptr r) = false ->
        len r = len x + len y /\ cap r = len x + len y
        /\ len x + len y < INT_MAX
        /\ exists b, ptr r = Some (b, 0)
                     /\ mem st' !! b = Some (concat_cells x y cx cy)).
Proof.
  intros Hs1 Hs2 Hx Hy.
  rewrite (concat_run avail s1 s2 st x y cx cy) by done.
  destruct (avail && (len x + len y <? INT_MAX)) eqn:Hok.
  - eexists _, _. split; [reflexivity|].
    split; [apply preserves_build, fresh_block_None|].
    split; [done|]. intros _. cbn [ptr len cap mem with_mem].
    repeat split; [bounds|].
    eexists. split; [reflexivity|]. by rewrite lookup_insert_eq.
  - eexists _, _. split; [reflexivity|].
    split; [apply preserves_refl|]. by split.
Qed.

(** A result of [fs_string_concat] is again a String Value; with a
    buffer, its content is the two ranges of [concat_cells]. *)
Lemma concat_string_value avail s1 s2 st x y cx cy r st' :
  structs st !! s1 = Some x ->
  structs st !! s2 = Some y ->
  string_value st x cx ->
  string_value st y cy ->
  fs_string_concat avail s1 s2 st = Some (r, st') ->
  exists c, string_value st' r c
            /\ (is_null (ptr r) = false ->
                is_null (ptr x) = false -> is_null (ptr y) = false ->
                c = cx ++ cy).
Proof.
  intros Hs1 Hs2 Hx Hy Hrun.
  destruct (concat_spec avail s1 s2 st x y cx cy Hs1 Hs2 Hx Hy)
    as (r0 & st0 & Hrun0 & _ & Hnull & Hok).
  rewrite Hrun in Hrun0. injection Hrun0 as <- <-.
  pose proof Hx as [Hlx _]. pose proof Hy as [Hly _].
  destruct (is_null (ptr r)) eqn:Hn.
  - exists []. split; [|done]. split.
    + rewrite Hnull by done. unfold INT_MAX. lia.
    + unfold content. by rewrite Hn.
  - destruct (Hok eq_refl) as (Hl & _ & Hfit & b & Hp & Hb).
    destruct (concat_cells_parts st x y cx cy Hx Hy)
      as (X & Y & Hcells & HX & HY & EX & EY).
    exists (X ++ Y). split.
    + split; [lia|]. unfold content. rewrite Hn, Hp.
      rewrite Hcells, app_assoc in Hb.
      apply (read_at_cells st' b [] (X ++ Y) [Val x00]); [done..|].
      rewrite Hl, length_app. lia.
    + intros _ Hnx Hny. rewrite Hnx in EX. rewrite Hny in EY. by subst.
Qed.

(** ** What [printf] writes *)

Lemma printf_s_content bs rest :
  printf_s (Some (length bs)) ((Val <$> bs) ++ rest) = Some (until_zero bs).
Proof.
  induction bs as [|c bs IH]; [by destruct rest|].
  cbn [length fmap list_fmap app printf_s until_zero option_fmap option_map].
  destruct (Byte.eqb c x00); [done|].
  cbn [Nat.pred]. by rewrite IH.
Qed.

Lemma until_zero_id bs : x00 ∉ bs -> until_zero bs = bs.
Proof.
  induction bs as [|c bs IH]; [done|]. intros Hnot.
  apply not_elem_of_cons in Hnot as [Hc Hbs]. cbn [until_zero].
  destruct (Byte.eqb c x00) eqn:Heq.
  - apply Byte.byte_dec_bl in Heq. congruence.
  - by rewrite IH.
Qed.

(** ** What [malloc] answered *)

(** The answer of the one [malloc] of [fs_string_alloc], for an [int]
    size. *)
Lemma malloc_answer avail size st p st1 :
  INT_MIN <= size <= INT_MAX ->
  malloc avail (to_size_t (int_add size 1)) st = Some (p, st1) ->
  p = if avail && ((-1 <=? size) && (size <? INT_MAX))
      then Some (fresh_block st, 0) else None.
Proof.
  intros Hs. unfold malloc. rewrite alloc_size_fits by done.
  fold (fresh_block st).
  destruct (avail && ((-1 <=? size) && (size <? INT_MAX)));
    by intros [= <- _].
Qed.

(** The answer of the one [malloc] of [fs_string_concat]. *)
Lemma concat_answer avail st lx ly p st1 :
  0 <= lx <= INT_MAX ->
  0 <= ly <= INT_MAX ->
  malloc avail (to_size_t (int_add (int_add lx ly) 1)) st = Some (p, st1) ->
  p = if avail && (lx + ly <? INT_MAX)
      then Some (fresh_block st, 0) else None.
Proof.
  intros Hlx Hly Hm.
  destruct (Z_le_gt_dec (lx + ly) INT_MAX) as [Hfit|Hover].
  - unfold int_add at 2 in Hm.
    rewrite wrap_int_id in Hm by (unfold INT_MIN, INT_MAX in *; lia).
    apply malloc_answer in Hm; [|unfold INT_MIN, INT_MAX in *; lia].
    by replace (-1 <=? lx + ly) with true in Hm by lia.
  - unfold int_add at 2 in Hm.
    rewrite wrap_int_high in Hm by (unfold INT_MAX in *; lia).
    apply malloc_answer in Hm; [|unfold INT_MIN, INT_MAX in *; lia].
    replace (-1 <=? lx + ly - 2 ^ 32) with false in Hm
      by (unfold INT_MAX in *; lia).
    replace (lx + ly <? INT_MAX) with false by lia.
    by rewrite andb_false_r in *.
Qed.

(** [fs_string_concat] on two String Values when its [malloc] returned
    the block [p]: the result is the new buffer, holding
    [concat_cells]. *)
Lemma concat_granted avail s1 s2 st x y cx cy p st1 :
  structs st !! s1 = Some x ->
  structs st !! s2 = Some y ->
  string_value st x cx ->
  string_value st y cy ->
  malloc avail (to_size_t (int_add (int_add (len x) (len y)) 1)) st
  = Some (Some p, st1) ->
  exists b st',
    fs_string_concat avail s1 s2 st
    = Some ({| ptr := Some p; len := len x + len y;
               cap := len x + len y |}, st')
    /\ p = (b, 0)
    /\ mem st' !! b = Some (concat_cells x y cx cy).
Proof.
  intros Hs1 Hs2 Hx Hy Hm.
  pose proof Hx as [Hlx _]. pose proof Hy as [Hly _].
  apply concat_answer in Hm; [|done..].
  rewrite (concat_run avail s1 s2 st x y cx cy) by done.
  destruct (avail && (len x + len y <? INT_MAX)); [|done].
  injection Hm as ->.
  eexists _, _. split; [reflexivity|]. split; [done|].
  cbn [mem with_mem]. by rewrite lookup_insert_eq.
Qed.

End Specs.

(** ** Properties of the specification *)

Section Claims.
Context `{Platform}.

(** C5. For every non-negative [int] [n], when the [malloc] of
    [fs_string_alloc n] returns a buffer [p], the call returns the value
    with handle [p], length 0 and capacity [n], and the byte at offset 0
    of its buffer is the terminator zero. *)
Theorem alloc_success avail n st p st1 :
  0 <= n <= INT_MAX ->
  malloc avail (to_size_t (int_add n 1)) st = Some (Some p, st1) ->
  exists s st',
    fs_string_alloc avail n st = Some (s, st')
    /\ ptr s = Some p
    /\ len s = 0 /\ cap s = n
    /\ byte_at st' (ptr s) 0 = Some (Val x00).
Proof.
  intros Hn Hm.
  apply malloc_answer in Hm; [|unfold INT_MIN, INT_MAX in *; lia].
  rewrite alloc_run by (unfold INT_MIN, INT_MAX in *; lia).
  replace (-1 <=? n) with true in Hm by lia.
  replace (0 <=? n) with true by lia. rewrite andb_true_r.
  cbn [andb] in Hm.
  destruct (avail && (n <? INT_MAX)); [|done]. injection Hm as ->.
  eexists _, _. split; [reflexivity|]. cbn [ptr len cap].
  do 3 (split; [done|]).
  apply (byte_at_cells _ _ [] (replicate (Z.to_nat n) Undef)); [|done].
  cbn [mem with_mem]. by rewrite lookup_insert_eq.
Qed.

(** C6. When the underlying [malloc] returns null, [fs_string_alloc]
    returns the value with a null handle, length 0 and the requested
    size as capacity, and [fs_string_from_literal] returns that same
    value: no copy is attempted (the data pointer is not even looked
    at), the state is unchanged and the call is defined. *)
Theorem alloc_failure avail n data st st' :
  malloc avail (to_size_t (int_add n 1)) st = Some (None, st') ->
  fs_string_alloc avail n st
  = Some ({| ptr := None; len := 0; cap := n |}, st)
  /\ fs_string_from_literal avail data n st
     = Some ({| ptr := None; len := 0; cap := n |}, st).
Proof.
  intros Hm. pose proof (alloc_failed avail n st st' Hm) as Ha.
  split; [done|].
  unfold fs_string_from_literal, bind. by rewrite Ha.
Qed.

(** C4. For every [n] readable cells [vs] at [data], with [n] a
    non-negative [int], when the [malloc] of
    [fs_string_from_literal data n] returns a buffer [p], the call
    returns the value with handle [p], length [n] and capacity [n],
    whose content is [vs] cell for cell, with the terminator zero at
    offset [n]. *)
Theorem from_literal_success avail data n st vs p st1 :
  0 <= n <= INT_MAX ->
  read_at st data 0 n = Some vs ->
  malloc avail (to_size_t (int_add n 1)) st = Some (Some p, st1) ->
  exists s st',
    fs_string_from_literal avail data n st = Some (s, st')
    /\ ptr s = Some p
    /\ len s = n /\ cap s = n
    /\ content st' s = Some vs
    /\ byte_at st' (ptr s) n = Some (Val x00).
Proof.
  intros Hn Hr Hm.
  apply malloc_answer in Hm; [|unfold INT_MIN, INT_MAX in *; lia].
  rewrite (from_literal_run avail data n st vs) by done.
  replace (-1 <=? n) with true in Hm by lia. cbn [andb] in Hm.
  assert (Z.of_nat (length vs) = n) as Hl.
  { unfold read_at in Hr. destruct data as [[b o]|]; [|done].
    destruct (mem st !! b); [|done]. by apply read_cells_length in Hr. }
  destruct (avail && (n <? INT_MAX)); [|done]. injection Hm as ->.
  eexists _, _. split; [reflexivity|]. cbn [ptr len cap].
  do 3 (split; [done|]).
  assert (mem (with_mem st (<[fresh_block st := vs ++ [Val x00]]> (mem st)))
            !! fresh_block st = Some (vs ++ [Val x00] ++ [])) as Hb.
  { cbn [mem with_mem]. by rewrite lookup_insert_eq. }
  split.
  - unfold content. cbn [ptr len is_null].
    by apply (read_at_cells _ _ [] vs [Val x00]).
  - by apply (byte_at_cells _ _ vs []).
Qed.

(** C3. For String Values [x] and [y] with non-null handles and
    contents [cx] and [cy], when the [malloc] of [fs_string_concat]
    returns a buffer [p], the call returns the value with handle [p]
    and length [len x + len y], whose content is [cx] followed by [cy],
    with the terminator zero at offset [len x + len y]. *)
Theorem concat_success avail s1 s2 st x y cx cy p st1 :
  structs st !! s1 = Some x ->
  structs st !! s2 = Some y ->
  string_value st x cx ->
  string_value st y cy ->
  is_null (ptr x) = false ->
  is_null (ptr y) = false ->
  malloc avail (to_size_t (int_add (int_add (len x) (len y)) 1)) st
  = Some (Some p, st1) ->
  exists r st',
    fs_string_concat avail s1 s2 st = Some (r, st')
    /\ ptr r = Some p
    /\ len r = len x + len y
    /\ content st' r = Some (cx ++ cy)
    /\ byte_at st' (ptr r) (len x + len y) = Some (Val x00).
Proof.
  intros Hs1 Hs2 Hx Hy Hnx Hny Hm.
  destruct (concat_granted avail s1 s2 st x y cx cy p st1 Hs1 Hs2 Hx Hy Hm)
    as (b & st' & Hrun & -> & Hb).
  eexists _, st'. split; [exact Hrun|]. cbn [ptr len].
  do 2 (split; [done|]).
  destruct (concat_cells_parts st x y cx cy Hx Hy)
    as (X & Y & Hcells & HX & HY & EX & EY).
  rewrite Hnx in EX. rewrite Hny in EY. subst X Y.
  rewrite Hcells, app_assoc in Hb. split.
  - unfold content. cbn [ptr len is_null].
    apply (read_at_cells st' b [] (cx ++ cy) [Val x00]); [done..|].
    rewrite length_app. lia.
  - apply (byte_at_cells st' b (cx ++ cy) []); [done|].
    rewrite length_app. lia.
Qed.

(** C1, as the code has it. For a String Value [x] with a null handle
    and a String Value [y] (non-null handle, or recorded length 0), when
    the [malloc] of [fs_string_concat] returns a buffer [p], the call
    returns the value with handle [p] and length [len x + len y], whose
    content is the [len x] cells no copy wrote, as [fs_string_alloc]
    left them, followed by the content of [y]: it is the content of [y]
    alone when [len x] is 0, and never when [len x] is positive. *)
Theorem concat_null_first avail s1 s2 st x y cy p st1 :
  structs st !! s1 = Some x ->
  structs st !! s2 = Some y ->
  is_null (ptr x) = true ->
  0 <= len x <= INT_MAX ->
  string_value st y cy ->
  is_null (ptr y) = false \/ len y = 0 ->
  malloc avail (to_size_t (int_add (int_add (len x) (len y)) 1)) st
  = Some (Some p, st1) ->
  exists r st',
    fs_string_concat avail s1 s2 st = Some (r, st')
    /\ ptr r = Some p
    /\ len r = len x + len y
    /\ content st' r
       = Some (take (Z.to_nat (len x)) (fresh_cells (len x + len y)) ++ cy)
    /\ (len x = 0 -> content st' r = Some cy)
    /\ (0 < len x -> content st' r <> Some cy).
Proof.
  intros Hs1 Hs2 Hnx Hlx Hy Hny Hm.
  assert (string_value st x []) as Hx.
  { split; [done|]. unfold content. by rewrite Hnx. }
  destruct (concat_granted avail s1 s2 st x y [] cy p st1 Hs1 Hs2 Hx Hy Hm)
    as (b & st' & Hrun & -> & Hb).
  eexists _, st'. split; [exact Hrun|]. cbn [ptr len].
  do 2 (split; [done|]).
  destruct (concat_cells_parts st x y [] cy Hx Hy)
    as (X & Y & Hcells & HX & HY & EX & EY).
  rewrite Hnx in EX.
  assert (Y = cy) as ->.
  { destruct Hny as [Hny|Hly].
    - by rewrite Hny in EY.
    - destruct Hy as [_ Hc]. unfold content in Hc.
      destruct (is_null (ptr y)); [|done].
      injection Hc as <-. apply nil_length_inv. lia. }
  rewrite Hcells, app_assoc in Hb.
  set (r := {| ptr := Some (b, 0); len := len x + len y;
               cap := len x + len y |}).
  assert (content st' r = Some (X ++ cy)) as Hc.
  { unfold content. cbn [r ptr len is_null].
    apply (read_at_cells st' b [] (X ++ cy) [Val x00]); [done..|].
    rewrite length_app. lia. }
  rewrite <- EX. split; [done|]. split.
  - intros H0. rewrite Hc. f_equal.
    assert (X = []) as -> by (apply nil_length_inv; lia). done.
  - intros Hpos. rewrite Hc. intros [= Heq].
    apply (f_equal length) in Heq. rewrite length_app in Heq. lia.
Qed.

(** C10. For a String Value [x] with a null handle and a String Value
    [y] with content [cy], when the [malloc] of [fs_string_concat]
    returns a buffer [p], the call returns the value with handle [p]
    whose length field is [len x + len y] and, for [y] with a buffer,
    the cells of the new buffer from offset [len x] on are [cy]; these
    [cy] are all that was copied, fewer cells than the recorded length
    when [len x] is positive. *)
Theorem concat_after_null_layout avail s1 s2 st x y cy p st1 :
  structs st !! s1 = Some x ->
  structs st !! s2 = Some y ->
  is_null (ptr x) = true ->
  0 <= len x <= INT_MAX ->
  string_value st y cy ->
  malloc avail (to_size_t (int_add (int_add (len x) (len y)) 1)) st
  = Some (Some p, st1) ->
  exists r st',
    fs_string_concat avail s1 s2 st = Some (r, st')
    /\ ptr r = Some p
    /\ len r = len x + len y
    /\ (is_null (ptr y) = false ->
        read_at st' (ptr r) (len x) (len y) = Some cy)
    /\ (0 < len x -> Z.of_nat (length cy) < len r).
Proof.
  intros Hs1 Hs2 Hnx Hlx Hy Hm.
  assert (string_value st x []) as Hx.
  { split; [done|]. unfold content. by rewrite Hnx. }
  destruct (concat_granted avail s1 s2 st x y [] cy p st1 Hs1 Hs2 Hx Hy Hm)
    as (b & st' & Hrun & -> & Hb).
  eexists _, st'. split; [exact Hrun|]. cbn [ptr len].
  do 2 (split; [done|]).
  destruct (concat_cells_parts st x y [] cy Hx Hy)
    as (X & Y & Hcells & HX & HY & EX & EY).
  split.
  - intros Hny. rewrite Hny in EY. subst Y.
    rewrite Hcells in Hb.
    apply (read_at_cells st' b X cy [Val x00]); [done|lia|lia].
  - intros Hpos.
    destruct (is_null (ptr y)) eqn:Hny.
    + destruct Hy as [Hly Hc]. unfold content in Hc. rewrite Hny in Hc.
      injection Hc as <-. simpl. lia.
    + rewrite (string_value_length st y cy Hy Hny). lia.
Qed.


(** C8. For String Values passed by reference, [fs_string_concat]
    returns, whether or not its allocation succeeds, and in the state it
    leaves both references still hold the same structs, every block of
    the old state (so the buffer of each input) is still allocated with
    the cells it had, and the contents of both inputs are what they
    were. *)
Theorem concat_preserves_inputs avail s1 s2 st x y cx cy :
  structs st !! s1 = Some x ->
  structs st !! s2 = Some y ->
  string_value st x cx ->
  string_value st y cy ->
  exists r st',
    fs_string_concat avail s1 s2 st = Some (r, st')
    /\ structs st' !! s1 = Some x
    /\ structs st' !! s2 = Some y
    /\ (forall b cells,
          mem st !! b = Some cells -> mem st' !! b = Some cells)
    /\ content st' x = Some cx
    /\ content st' y = Some cy.
Proof.
  intros Hs1 Hs2 Hx Hy.
  destruct (concat_spec avail s1 s2 st x y cx cy Hs1 Hs2 Hx Hy)
    as (r & st' & Hrun & Hp & _).
  exists r, st'. split; [done|].
  pose proof (preserves_string_value st st' x cx Hp Hx) as [_ Hcx].
  pose proof (preserves_string_value st st' y cy Hp Hy) as [_ Hcy].
  destruct Hp as (Hst & _ & Hm). rewrite Hst. done.
Qed.

End Claims.

(** C1, as stated, fails: concatenating the null-handle value of
    recorded length 1 with the string [a] gives a two-byte content, the
    terminator left by [fs_string_alloc] and then [a], not [a] alone. *)
Lemma null_length_one_not_alone :
  exists r st',
    fs_string_concat true 1%positive 2%positive null_state = Some (r, st')
    /\ is_null (ptr r) = false
    /\ content null_state str_a = Some [Val "a"%byte]
    /\ content st' r = Some [Val x00; Val "a"%byte]
    /\ content st' r <> content null_state str_a.
Proof.
  eexists _, _. split; [vm_compute; reflexivity|].
  split; [reflexivity|].
  split; [vm_compute; reflexivity|].
  split; [vm_compute; reflexivity|].
  vm_compute. discriminate.
Qed.

(** What [fs_print_string] writes. On a value with a null
    handle it writes the text [(null)] and a newline; on a value with a
    non-null handle whose content is the bytes [bs] it writes the bytes
    of [bs] before its first zero byte, verbatim, and a newline: all of
    [bs] when no byte of it is zero. *)
Theorem print_output s st x :
  structs st !! s = Some x ->
  (is_null (ptr x) = true ->
   fs_print_string s st
   = Some (tt, with_stdout st (stdout st ++ null_text ++ [newline])))
  /\ (forall bs,
        is_null (ptr x) = false ->
        content st x = Some (Val <$> bs) ->
        fs_print_string s st
        = Some (tt, with_stdout st (stdout st ++ until_zero bs ++ [newline]))
        /\ (x00 ∉ bs -> until_zero bs = bs)).
Proof.
  intros Hs. unfold fs_print_string, bind, deref. rewrite Hs. split.
  - by intros ->.
  - intros bs Hn Hc. split; [|apply until_zero_id].
    rewrite Hn. unfold content in Hc. rewrite Hn in Hc.
    unfold printf_prec_s_nl. unfold read_at in Hc.
    destruct (ptr x) as [[b o]|]; [|done].
    destruct (mem st !! b) as [cells|]; [|done].
    rewrite Z.add_0_r in Hc.
    pose proof (read_cells_length _ _ _ _ Hc) as Hl.
    apply read_cells_Some in Hc as (Ho & Hlen & Hb & Hbs).
    replace ((0 <=? o) && (o <=? Z.of_nat (length cells))) with true
      by (symmetry; bounds).
    unfold precision. replace (len x <? 0) with false by lia.
    rewrite <- (take_drop (Z.to_nat (len x)) (drop (Z.to_nat o) cells)).
    rewrite <- Hbs. rewrite length_fmap in Hl.
    replace (Z.to_nat (len x)) with (length bs) by lia.
    by rewrite printf_s_content.
Qed.

(** C2. The code breaks the claim on a value its own constructor
    builds: [fs_string_from_literal] on the three bytes [a], zero, [b]
    returns a value of length 3 with exactly that content, and
    [fs_print_string] on it writes [a] and a newline, not the three
    bytes and a newline. *)
Theorem print_stops_at_zero_byte :
  exists s st',
    literal_print true (Some (1%positive, 0)) 3 2%positive zero_state
    = Some (s, st')
    /\ is_null (ptr s) = false
    /\ len s = 3
    /\ content st' s = Some (Val <$> ["a"%byte; x00; "b"%byte])
    /\ stdout st' = ["a"%byte; newline]
    /\ stdout st'
       <> stdout zero_state ++ ["a"%byte; x00; "b"%byte] ++ [newline].
Proof.
  eexists _, _. split; [vm_compute; reflexivity|].
  split; [reflexivity|]. split; [reflexivity|].
  split; [vm_compute; reflexivity|].
  split; [reflexivity|]. cbn. discriminate.
Qed.

(** ** The properties at sample inputs *)

(** Discharging [string_value] and the side conditions on a sample
    state by evaluation. *)
Ltac by_evaluation :=
  first [ reflexivity
        | discriminate
        | split; [unfold INT_MAX; simpl; lia | vm_compute; reflexivity]
        | unfold INT_MAX; simpl; lia
        | vm_compute; reflexivity ].

Lemma alloc_success_witness :
  exists s st',
    fs_string_alloc true 3 empty_state = Some (s, st')
    /\ ptr s = Some (1%positive, 0)
    /\ len s = 0 /\ cap s = 3
    /\ byte_at st' (ptr s) 0 = Some (Val x00).
Proof.
  eapply (alloc_success true 3 empty_state (1%positive, 0));
    [by_evaluation | vm_compute; reflexivity].
Defined.

Lemma alloc_failure_witness :
  malloc false (to_size_t (int_add 5 1)) empty_state
  = Some (None, empty_state)
  /\ fs_string_alloc false 5 empty_state
     = Some ({| ptr := None; len := 0; cap := 5 |}, empty_state)
  /\ fs_string_from_literal false None 5 empty_state
     = Some ({| ptr := None; len := 0; cap := 5 |}, empty_state).
Proof.
  split; [reflexivity|].
  apply (alloc_failure false 5 None empty_state empty_state). reflexivity.
Defined.

Lemma from_literal_success_witness :
  exists s st',
    fs_string_from_literal true (Some (1%positive, 0)) 3 foo_bar_state
    = Some (s, st')
    /\ ptr s = Some (4%positive, 0)
    /\ len s = 3 /\ cap s = 3
    /\ content st' s = Some [Val "f"%byte; Val "o"%byte; Val "o"%byte]
    /\ byte_at st' (ptr s) 3 = Some (Val x00).
Proof.
  eapply (from_literal_success true (Some (1%positive, 0)) 3 foo_bar_state
            _ (4%positive, 0));
    [by_evaluation | by_evaluation | vm_compute; reflexivity].
Defined.

Lemma concat_success_witness :
  exists r st',
    fs_string_concat true 1%positive 2%positive foo_bar_state = Some (r, st')
    /\ ptr r = Some (4%positive, 0)
    /\ len r = 3 + 3
    /\ content st' r
       = Some ([Val "f"%byte; Val "o"%byte; Val "o"%byte]
               ++ [Val "b"%byte; Val "a"%byte; Val "r"%byte])
    /\ byte_at st' (ptr r) (3 + 3) = Some (Val x00).
Proof.
  eapply (concat_success true 1%positive 2%positive foo_bar_state
            str_foo str_bar _ _ (4%positive, 0));
    [by_evaluation .. | vm_compute; reflexivity].
Defined.

Lemma concat_null_first_witness :
  exists r st',
    fs_string_concat true 1%positive 2%positive null_state = Some (r, st')
    /\ ptr r = Some (2%positive, 0)
    /\ len r = 1 + 1
    /\ content st' r
       = Some (take (Z.to_nat 1) (fresh_cells (1 + 1)) ++ [Val "a"%byte])
    /\ (1 = 0 -> content st' r = Some [Val "a"%byte])
    /\ (0 < 1 -> content st' r <> Some [Val "a"%byte]).
Proof.
  eapply (concat_null_first true 1%positive 2%positive null_state
            null_len1 str_a _ (2%positive, 0));
    [by_evaluation .. | left; reflexivity | vm_compute; reflexivity].
Defined.

Lemma concat_after_null_layout_witness :
  exists r st',
    fs_string_concat true 1%positive 2%positive null_state = Some (r, st')
    /\ ptr r = Some (2%positive, 0)
    /\ len r = 1 + 1
    /\ (false = false -> read_at st' (ptr r) 1 1 = Some [Val "a"%byte])
    /\ (0 < 1 -> Z.of_nat (length [Val "a"%byte]) < len r).
Proof.
  eapply (concat_after_null_layout true 1%positive 2%positive null_state
            null_len1 str_a _ (2%positive, 0));
    [by_evaluation .. | vm_compute; reflexivity].
Defined.


Lemma concat_preserves_inputs_witness :
  exists r st',
    fs_string_concat false 1%positive 2%positive foo_bar_state = Some (r, st')
    /\ structs st' !! 1%positive = Some str_foo
    /\ structs st' !! 2%positive = Some str_bar
    /\ (forall b cells,
          mem foo_bar_state !! b = Some cells -> mem st' !! b = Some cells)
    /\ content st' str_foo
       = Some [Val "f"%byte; Val "o"%byte; Val "o"%byte]
    /\ content st' str_bar
       = Some [Val "b"%byte; Val "a"%byte; Val "r"%byte].
Proof.
  apply (concat_preserves_inputs false 1%positive 2%positive foo_bar_state
           str_foo str_bar); by_evaluation.
Defined.

Lemma print_output_witness :
  (is_null (ptr str_foo) = true ->
   fs_print_string 1%positive foo_bar_state
   = Some (tt, with_stdout foo_bar_state
                 (stdout foo_bar_state ++ null_text ++ [newline])))
  /\ (forall bs,
        is_null (ptr str_foo) = false ->
        content foo_bar_state str_foo = Some (Val <$> bs) ->
        fs_print_string 1%positive foo_bar_state
        = Some (tt, with_stdout foo_bar_state
                      (stdout foo_bar_state ++ until_zero bs ++ [newline]))
        /\ (x00 ∉ bs -> until_zero bs = bs)).
Proof.
  apply (print_output 1%positive foo_bar_state str_foo). reflexivity.
Defined.

(** ** The scenarios of the specification *)

(** [foo] concatenated with [bar] has length 6 and content [foobar],
    and prints as such. *)
Example foo_bar_scenario :
  exists r st',
    literal_concat_print (Some (1%positive, 0)) 3 (Some (2%positive, 0)) 3
      5%positive 6%positive 7%positive foo_bar_state = Some (r, st')
    /\ len r = 6
    /\ content st' r
       = Some (Val <$> ["f"; "o"; "o"; "b"; "a"; "r"]%byte)
    /\ stdout st' = ["f"; "o"; "o"; "b"; "a"; "r"; newline]%byte.
Proof.
  eexists _, _. split; [vm_compute; reflexivity|].
  repeat split; vm_compute; reflexivity.
Qed.

(** [fs_string_alloc 0] succeeds with capacity 0 and length 0, and
    prints as an empty line. *)
Example alloc_zero_scenario :
  exists s st',
    alloc_print true 0 1%positive empty_state = Some (s, st')
    /\ is_null (ptr s) = false /\ len s = 0 /\ cap s = 0
    /\ stdout st' = [newline].
Proof.
  eexists _, _. split; [vm_compute; reflexivity|].
  repeat split; vm_compute; reflexivity.
Qed.

(** A failed allocation prints as [(null)]. *)
Example alloc_failed_scenario :
  exists s st',
    alloc_print false 8 1%positive empty_state = Some (s, st')
    /\ is_null (ptr s) = true
    /\ stdout st' = null_text ++ [newline].
Proof.
  eexists _, _. split; [vm_compute; reflexivity|].
  repeat split; vm_compute; reflexivity.
Qed.

(** An [int] sum that overflows is refused by the allocator: the
    request, converted to [size_t], exceeds any object. *)
Example overflow_refused :
  int_add INT_MAX 1 = INT_MIN
  /\ PTRDIFF_MAX < to_size_t (int_add INT_MAX 1)
  /\ fs_string_alloc true INT_MAX empty_state
     = Some ({| ptr := None; len := 0; cap := INT_MAX |}, empty_state).
Proof. repeat split; vm_compute; reflexivity. Qed.

(** * Further properties of the runtime *)

(** ** Every value the runtime makes *)

Section Made.
Context `{Platform}.

(** [malloc(0)] may succeed, and then the terminator has no room. *)
Lemma alloc_minus_one avail st :
  fs_string_alloc avail (-1) st
  = if avail then None
    else Some ({| ptr := None; len := 0; cap := -1 |}, st).
Proof.
  unfold fs_string_alloc, bind, malloc.
  change (int_add (-1) 1) with 0.
  assert (to_size_t 0 = 0) as -> by (unfold to_size_t; apply Z.mod_0_l;
    pose proof pow_size_bits; pose proof pow_size_bits_ge; lia).
  assert ((0 <=? PTRDIFF_MAX) = true) as ->
      by (unfold PTRDIFF_MAX; pose proof pow_size_bits_ge; lia).
  destruct avail; [|done]. cbn [andb ptr is_null].
  unfold store_byte. cbn [mem with_mem]. by rewrite lookup_insert_eq.
Qed.

(** A constructed value is either the failed value, with the state
    untouched, or the start of the one new block, which holds its
    content, the terminator, and the capacity not yet used. *)
Lemma constructed_shape st s st' :
  constructed st s st' ->
  (ptr s = None /\ len s = 0 /\ st' = st)
  \/ (exists c,
        ptr s = Some (fresh_block st, 0)
        /\ 0 <= len s <= cap s /\ cap s < INT_MAX
        /\ Z.of_nat (length c) = len s
        /\ st' = with_mem st
                   (<[fresh_block st :=
                        c ++ [Val x00]
                          ++ replicate (Z.to_nat (cap s - len s)) Undef]>
                      (mem st))).
Proof.
  intros [avail size Hsize Hrun | avail data n vs Hn Hr Hrun
         | avail s1 s2 x y cx cy Hs1 Hs2 Hx Hy Hrun].
  - destruct (Z.eq_dec size (-1)) as [->|Hne].
    + rewrite alloc_minus_one in Hrun. destruct avail; [done|].
      injection Hrun as <- <-. by left.
    + rewrite alloc_run in Hrun by done.
      destruct (avail && (0 <=? size) && (size <? INT_MAX)) eqn:Hok;
        injection Hrun as <- <-; [|by left].
      right. exists []. cbn [ptr len cap length].
      rewrite Z.sub_0_r. repeat split; try done; bounds.
  - rewrite (from_literal_run avail data n st vs) in Hrun by done.
    destruct (avail && (n <? INT_MAX)) eqn:Hok;
      injection Hrun as <- <-; [|by left].
    right. exists vs. cbn [ptr len cap]. rewrite Z.sub_diag.
    assert (Z.of_nat (length vs) = n) as Hl.
    { unfold read_at in Hr. destruct data as [[b o]|]; [|done].
      destruct (mem st !! b); [|done]. by apply read_cells_length in Hr. }
    repeat split; try done; bounds.
  - rewrite (concat_run avail s1 s2 st x y cx cy) in Hrun by done.
    destruct (avail && (len x + len y <? INT_MAX)) eqn:Hok;
      injection Hrun as <- <-; [|by left].
    destruct (concat_cells_parts st x y cx cy Hx Hy)
      as (X & Y & Hcells & HX & HY & _).
    pose proof Hx as [Hlx _]. pose proof Hy as [Hly _].
    right. exists (X ++ Y). cbn [ptr len cap]. rewrite Z.sub_diag.
    rewrite Hcells, length_app. cbn [Z.to_nat replicate].
    rewrite <- !app_assoc. repeat split; try done; bounds.
Qed.


(** C9. A value with a non-null handle returned by
    [fs_string_alloc] for an [int] size, by [fs_string_from_literal] for
    a readable literal of non-negative [int] length, or by
    [fs_string_concat] for two String Values, has its length at most its
    capacity. *)
Theorem length_le_capacity st s st' :
  constructed st s st' ->
  is_null (ptr s) = false ->
  len s <= cap s.
Proof.
  intros Hc Hn.
  destruct (constructed_shape st s st' Hc) as [(Hp & _) | (c & _ & Hl & _)].
  - rewrite Hp in Hn. discriminate.
  - lia.
Qed.

(** X1. A value with a null handle returned by a constructor has
    length 0, and the call left the state as it was. *)
Theorem failed_value_shape st s st' :
  constructed st s st' ->
  is_null (ptr s) = true ->
  len s = 0 /\ st' = st.
Proof.
  intros Hc Hn.
  destruct (constructed_shape st s st' Hc) as [(_ & Hl & Hst) | (c & Hp & _)].
  - done.
  - rewrite Hp in Hn. discriminate.
Qed.

(** X2. A value with a non-null handle returned by a constructor owns
    a buffer that did not exist before the call: the handle is the start
    of a new block of [cap + 1] bytes, the length is between 0 and the
    capacity, and the terminator is at offset [len]. *)
Theorem constructed_owns_buffer st s st' :
  constructed st s st' ->
  is_null (ptr s) = false ->
  owns_buffer st st' s.
Proof.
  intros Hc Hn.
  destruct (constructed_shape st s st' Hc)
    as [(Hp & _) | (c & Hp & Hl & Hcap & Hlc & ->)].
  - rewrite Hp in Hn. discriminate.
  - exists (fresh_block st),
      (c ++ [Val x00] ++ replicate (Z.to_nat (cap s - len s)) Undef).
    split; [done|].
    split; [apply fresh_block_None|].
    split; [cbn [mem with_mem]; by rewrite lookup_insert_eq|].
    split; [rewrite !length_app, length_replicate; simpl; lia|].
    split; [done|]. rewrite Hp.
    apply (byte_at_cells _ _ c (replicate (Z.to_nat (cap s - len s)) Undef));
      [|lia].
    cbn [mem with_mem]. by rewrite lookup_insert_eq.
Qed.

(** X3. No constructor touches what exists: the structs, the output
    and every block of the old state are the same after the call, so
    every String Value of the old state is one of the new state, with
    the same content. *)
Theorem constructed_preserves st s st' :
  constructed st s st' ->
  preserves st st'
  /\ forall v c, string_value st v c -> string_value st' v c.
Proof.
  intros Hc.
  assert (preserves st st') as Hp.
  { destruct (constructed_shape st s st' Hc)
      as [(_ & _ & ->) | (c & _ & _ & _ & _ & ->)].
    - apply preserves_refl.
    - apply preserves_build, fresh_block_None. }
  split; [done|]. intros v c. by apply preserves_string_value.
Qed.

(** X4. What a constructor returns is a String Value of the new
    state, so it can be passed on to [fs_string_concat]: its length is a
    non-negative [int] and its content is [len] readable cells. *)
Theorem constructed_string_value st s st' :
  constructed st s st' ->
  exists c, string_value st' s c /\ Z.of_nat (length c) = len s.
Proof.
  intros Hc.
  destruct (constructed_shape st s st' Hc)
    as [(Hp & Hl & ->) | (c & Hp & Hl & Hcap & Hlc & ->)].
  - exists []. split; [|by rewrite Hl]. split.
    + rewrite Hl. unfold INT_MAX. lia.
    + unfold content. by rewrite Hp.
  - exists c. split; [|done]. split; [lia|].
    unfold content. rewrite Hp. cbn [is_null].
    apply (read_at_cells _ _ [] c
             ([Val x00] ++ replicate (Z.to_nat (cap s - len s)) Undef));
      [|done|lia].
    cbn [mem with_mem]. by rewrite lookup_insert_eq.
Qed.

(** ** Edges of [fs_string_alloc] and [fs_string_concat] *)

(** X5. A negative size never gives a buffer: [fs_string_alloc] returns
    the failed value and leaves the state alone, except for size -1 when
    [malloc(0)] succeeds, where writing the terminator is out of
    bounds. *)
Theorem alloc_negative avail size st :
  INT_MIN <= size < 0 ->
  fs_string_alloc avail size st
  = if avail && (size =? -1) then None
    else Some ({| ptr := None; len := 0; cap := size |}, st).
Proof.
  intros Hs. destruct (Z.eq_dec size (-1)) as [->|Hne].
  - rewrite alloc_minus_one. by destruct avail.
  - rewrite alloc_run by (unfold INT_MAX; lia).
    replace (size =? -1) with false by lia.
    replace (0 <=? size) with false by lia.
    by rewrite andb_false_r.
Qed.

(** X6. When the lengths of two String Values sum to [INT_MAX] or
    more, [fs_string_concat] returns the failed value, whatever the
    allocator would answer, and leaves the state alone; past [INT_MAX]
    the capacity it records is the wrapped sum, a negative number. *)
Theorem concat_overflow avail s1 s2 st x y cx cy :
  structs st !! s1 = Some x ->
  structs st !! s2 = Some y ->
  string_value st x cx ->
  string_value st y cy ->
  INT_MAX <= len x + len y ->
  exists r,
    fs_string_concat avail s1 s2 st = Some (r, st)
    /\ ptr r = None /\ len r = 0
    /\ (INT_MAX < len x + len y ->
        cap r = len x + len y - 2 ^ 32 /\ cap r < 0).
Proof.
  intros Hs1 Hs2 Hx Hy Hsum.
  rewrite (concat_run avail s1 s2 st x y cx cy) by done.
  replace (len x + len y <? INT_MAX) with false by lia.
  rewrite andb_false_r. eexists. split; [reflexivity|].
  cbn [ptr len cap]. do 2 (split; [done|]). intros Hover.
  destruct Hx as [Hlx _]. destruct Hy as [Hly _].
  unfold int_add. rewrite wrap_int_high by lia.
  unfold INT_MAX in *. lia.
Qed.

(** X7. For a String Value [x] with a buffer and a String Value [y]
    with a null handle, when the [malloc] of [fs_string_concat] returns
    a buffer [p], the call returns the value with handle [p] and length
    [len x + len y], whose content is the content of [x] followed by the
    [len y] cells no copy wrote: the content of [x] alone when [len y]
    is 0, and never when [len y] is positive. *)
Theorem concat_null_second avail s1 s2 st x y cx p st1 :
  structs st !! s1 = Some x ->
  structs st !! s2 = Some y ->
  string_value st x cx ->
  is_null (ptr x) = false ->
  is_null (ptr y) = true ->
  0 <= len y <= INT_MAX ->
  malloc avail (to_size_t (int_add (int_add (len x) (len y)) 1)) st
  = Some (Some p, st1) ->
  exists r st',
    fs_string_concat avail s1 s2 st = Some (r, st')
    /\ ptr r = Some p
    /\ len r = len x + len y
    /\ content st' r
       = Some (cx ++ take (Z.to_nat (len y))
                       (drop (Z.to_nat (len x))
                             (fresh_cells (len x + len y))))
    /\ (len y = 0 -> content st' r = Some cx)
    /\ (0 < len y -> content st' r <> Some cx).
Proof.
  intros Hs1 Hs2 Hx Hnx Hny Hly Hm.
  assert (string_value st y []) as Hy.
  { split; [done|]. unfold content. by rewrite Hny. }
  destruct (concat_granted avail s1 s2 st x y cx [] p st1 Hs1 Hs2 Hx Hy Hm)
    as (b & st' & Hrun & -> & Hb).
  eexists _, st'. split; [exact Hrun|]. cbn [ptr len].
  do 2 (split; [done|]).
  destruct (concat_cells_parts st x y cx [] Hx Hy)
    as (X & Y & Hcells & HX & HY & EX & EY).
  rewrite Hnx in EX. rewrite Hny in EY. subst X.
  rewrite Hcells, app_assoc in Hb.
  set (r := {| ptr := Some (b, 0); len := len x + len y;
               cap := len x + len y |}).
  assert (content st' r = Some (cx ++ Y)) as Hc.
  { unfold content. cbn [r ptr len is_null].
    apply (read_at_cells st' b [] (cx ++ Y) [Val x00]); [done..|].
    rewrite length_app. lia. }
  rewrite <- EY. split; [done|]. split.
  - intros H0. rewrite Hc. f_equal.
    assert (Y = []) as -> by (apply nil_length_inv; lia).
    by rewrite app_nil_r.
  - intros Hpos. rewrite Hc. intros [= Heq].
    apply (f_equal length) in Heq. rewrite length_app in Heq. lia.
Qed.

End Made.

(** ** Printing *)

(** [fs_print_string] appends [print_text] to the output and does
    nothing else. *)
Lemma print_run s st x :
  structs st !! s = Some x ->
  fs_print_string s st
  = match print_text st x with
    | Some t => Some (tt, with_stdout st (stdout st ++ t))
    | None => None
    end.
Proof.
  intros Hs. unfold fs_print_string, bind, deref, print_text. rewrite Hs.
  destruct (ptr x) as [[b o]|]; cbn [is_null]; [|done].
  unfold printf_prec_s_nl. destruct (mem st !! b) as [cells|]; [|done].
  destruct ((0 <=? o) && (o <=? Z.of_nat (length cells))); [|done].
  by destruct (printf_s (precision (len x)) (drop (Z.to_nat o) cells)).
Qed.

Lemma print_text_content st x bs :
  is_null (ptr x) = false ->
  content st x = Some (Val <$> bs) ->
  print_text st x = Some (until_zero bs ++ [newline]).
Proof.
  intros Hn Hc. unfold content in Hc. rewrite Hn in Hc.
  unfold print_text. unfold read_at in Hc.
  destruct (ptr x) as [[b o]|]; [|done].
  destruct (mem st !! b) as [cells|]; [|done].
  rewrite Z.add_0_r in Hc.
  pose proof (read_cells_length _ _ _ _ Hc) as Hl.
  apply read_cells_Some in Hc as (Ho & Hlen & Hb & Hbs).
  replace ((0 <=? o) && (o <=? Z.of_nat (length cells))) with true
    by (symmetry; bounds).
  unfold precision. replace (len x <? 0) with false by lia.
  rewrite <- (take_drop (Z.to_nat (len x)) (drop (Z.to_nat o) cells)).
  rewrite <- Hbs. rewrite length_fmap in Hl.
  replace (Z.to_nat (len x)) with (length bs) by lia.
  by rewrite printf_s_content.
Qed.

(** What [printf] wrote under [%.*s] is a prefix of the array, free of
    zero bytes, and no longer than the precision. *)
Lemma printf_s_sound cells : forall prec out,
  printf_s prec cells = Some out ->
  (x00 ∉ out)
  /\ (exists rest, cells = (Val <$> out) ++ rest)
  /\ (forall k, prec = Some k -> (length out <= k)%nat).
Proof.
  induction cells as [|v cells IH]; intros prec out Hrun.
  - destruct prec as [[|k]|]; simpl in Hrun; try discriminate.
    injection Hrun as <-. split; [apply not_elem_of_nil|].
    split; [by exists []|]. intros k _. simpl. lia.
  - assert (prec = Some O /\ out = []
            \/ exists c q, v = Val c /\ prec <> Some O
                 /\ (Byte.eqb c x00 = true /\ out = []
                     \/ Byte.eqb c x00 = false
                        /\ exists out', printf_s (Nat.pred <$> prec) cells
                                        = Some out'
                                        /\ out = c :: out' /\ q = out'))
      as Hcases.
    { destruct prec as [[|k]|]; simpl in Hrun.
      - injection Hrun as <-. by left.
      - destruct v as [|c]; [done|]. right. exists c.
        destruct (Byte.eqb c x00) eqn:Hz.
        + injection Hrun as <-. exists []. split; [done|]. split; [done|].
          by left.
        + destruct (printf_s (Some k) cells) as [out'|] eqn:Hr; [|done].
          injection Hrun as <-. exists out'. split; [done|].
          split; [done|]. right. split; [done|]. by exists out'.
      - destruct v as [|c]; [done|]. right. exists c.
        destruct (Byte.eqb c x00) eqn:Hz.
        + injection Hrun as <-. exists []. split; [done|]. split; [done|].
          by left.
        + destruct (printf_s None cells) as [out'|] eqn:Hr; [|done].
          injection Hrun as <-. exists out'. split; [done|].
          split; [done|]. right. split; [done|]. by exists out'. }
    destruct Hcases as [[-> ->] | (c & q & -> & Hp & Hcase)].
    + split; [apply not_elem_of_nil|]. split; [by eexists|].
      intros k _. simpl. lia.
    + destruct Hcase as [[Hz ->] | (Hz & out' & Hr & -> & _)].
      * split; [apply not_elem_of_nil|]. split; [by eexists|].
        intros k _. simpl. lia.
      * destruct (IH _ _ Hr) as (Hno & [rest ->] & Hk).
        split; [|split].
        -- apply not_elem_of_cons. split; [|done]. intros <-.
           by rewrite (Byte.byte_dec_lb (x:=x00) (y:=x00) eq_refl) in Hz.
        -- by exists rest.
        -- intros k ->. destruct k as [|k]; [done|].
           simpl. specialize (Hk k eq_refl). lia.
Qed.

(** X8. When [fs_print_string] returns, it has only appended to the
    output: buffers and structs are untouched, so printing the same
    reference again appends the same text again. *)
Theorem print_twice s st st1 :
  fs_print_string s st = Some (tt, st1) ->
  exists t,
    st1 = with_stdout st (stdout st ++ t)
    /\ fs_print_string s st1 = Some (tt, with_stdout st1 (stdout st1 ++ t)).
Proof.
  intros Hrun.
  destruct (structs st !! s) as [x|] eqn:Hs.
  - rewrite (print_run s st x Hs) in Hrun.
    destruct (print_text st x) as [t|] eqn:Ht; [|done].
    injection Hrun as <-. exists t. split; [done|].
    rewrite (print_run s _ x) by done.
    change (print_text (with_stdout st (stdout st ++ t)) x)
      with (print_text st x). by rewrite Ht.
  - unfold fs_print_string, bind, deref in Hrun. by rewrite Hs in Hrun.
Qed.

(** X9. The line [fs_print_string] writes never contains a zero byte
    before its newline; for a null handle it is the text [(null)], and
    for a buffer and a non-negative length it is at most [len] bytes,
    read verbatim from the start of the buffer. *)
Theorem print_bounds s st x st1 :
  structs st !! s = Some x ->
  fs_print_string s st = Some (tt, st1) ->
  exists out,
    stdout st1 = stdout st ++ out ++ [newline]
    /\ (x00 ∉ out)
    /\ (is_null (ptr x) = true -> out = null_text)
    /\ (is_null (ptr x) = false -> 0 <= len x ->
        Z.of_nat (length out) <= len x
        /\ read_at st (ptr x) 0 (Z.of_nat (length out))
           = Some (Val <$> out)).
Proof.
  intros Hs Hrun. rewrite (print_run s st x Hs) in Hrun.
  destruct (print_text st x) as [t|] eqn:Ht; [|done].
  injection Hrun as <-. unfold print_text in Ht.
  destruct (ptr x) as [[b o]|] eqn:Hp.
  - destruct (mem st !! b) as [cells|] eqn:Hb; [|done].
    destruct ((0 <=? o) && (o <=? Z.of_nat (length cells))) eqn:Ho; [|done].
    destruct (printf_s (precision (len x)) (drop (Z.to_nat o) cells))
      as [out|] eqn:Hout; [|done].
    injection Ht as <-. exists out. split; [done|].
    destruct (printf_s_sound _ _ _ Hout) as (Hno & [rest Hrest] & Hk).
    split; [done|]. split; [done|]. intros _ Hlen.
    assert (Z.of_nat (length out) <= len x) as Hle.
    { unfold precision in Hk. replace (len x <? 0) with false in Hk by lia.
      specialize (Hk _ eq_refl). lia. }
    split; [done|]. unfold read_at. rewrite Hb, Z.add_0_r.
    pose proof (f_equal length Hrest) as Hl.
    rewrite length_drop, length_app, length_fmap in Hl.
    unfold read_cells.
    replace ((0 <=? o) && (0 <=? Z.of_nat (length out))
             && (o + Z.of_nat (length out) <=? Z.of_nat (length cells)))
      with true by (symmetry; bounds).
    rewrite Hrest, Nat2Z.id.
    rewrite <- (length_fmap Val out) at 1. by rewrite take_app_length.
  - injection Ht as <-. exists null_text. split; [done|].
    split; [|by split]. unfold null_text.
    rewrite !not_elem_of_cons. repeat split; try discriminate.
    apply not_elem_of_nil.
Qed.

(** ** Constructing, then printing *)

Lemma bind_Some {A B} (m : M A) (k : A -> M B) st a st' :
  m st = Some (a, st') -> bind m k st = k a st'.
Proof. intros Hm. unfold bind. by rewrite Hm. Qed.

(** The caller keeps [s] at [a] and prints it. *)
Lemma assign_print_ret st a s bs :
  (is_null (ptr s) = false -> content st s = Some (Val <$> bs)) ->
  (assign a s ;; fs_print_string a ;; ret s) st
  = Some (s, with_stdout (with_structs st (<[a := s]> (structs st)))
               (stdout st
                ++ (if is_null (ptr s) then null_text else until_zero bs)
                ++ [newline])).
Proof.
  intros Hc. unfold bind at 1. unfold assign.
  set (st2 := with_structs st (<[a := s]> (structs st))).
  assert (structs st2 !! a = Some s) as Ha
      by (cbn; by rewrite lookup_insert_eq).
  unfold bind. rewrite (print_run a st2 s Ha).
  destruct (is_null (ptr s)) eqn:Hn.
  - unfold print_text. destruct (ptr s); [discriminate|]. done.
  - by rewrite (print_text_content st2 s bs Hn (Hc eq_refl)).
Qed.

Section Compose.
Context `{Platform}.

(** X10. Building a String Value from the literal bytes [bs] and
    printing it returns, with the handle [malloc] answered: when that is
    a buffer the output gains the bytes of [bs] before its first zero
    byte and a newline, all of [bs] when it has no zero byte; when it is
    null the output gains [(null)] and a newline. *)
Theorem literal_print_output avail data n a st bs p st1 :
  0 <= n <= INT_MAX ->
  read_at st data 0 n = Some (Val <$> bs) ->
  malloc avail (to_size_t (int_add n 1)) st = Some (p, st1) ->
  exists s st',
    literal_print avail data n a st = Some (s, st')
    /\ ptr s = p
    /\ stdout st'
       = stdout st
         ++ (if is_null p then null_text else until_zero bs)
         ++ [newline]
    /\ (is_null p = false -> x00 ∉ bs ->
        stdout st' = stdout st ++ bs ++ [newline]).
Proof.
  intros Hn Hr Hm. unfold literal_print.
  apply malloc_answer in Hm; [|unfold INT_MIN, INT_MAX in *; lia].
  replace (-1 <=? n) with true in Hm by lia. cbn [andb] in Hm.
  pose proof (from_literal_run avail data n st (Val <$> bs) Hn Hr) as Hrun.
  destruct (avail && (n <? INT_MAX)); subst p;
    rewrite (bind_Some _ _ _ _ _ Hrun); clear Hrun.
  - rewrite (assign_print_ret _ a _ bs).
    + eexists _, _. split; [reflexivity|]. cbn [stdout with_stdout ptr is_null].
      do 2 (split; [done|]). intros _ Hz. by rewrite until_zero_id.
    + intros _. unfold content. cbn [ptr len is_null].
      assert (Z.of_nat (length (Val <$> bs)) = n) as Hl.
      { unfold read_at in Hr. destruct data as [[b o]|]; [|done].
        destruct (mem st !! b); [|done]. by apply read_cells_length in Hr. }
      apply (read_at_cells _ _ [] (Val <$> bs) [Val x00]); [|done|lia].
      cbn [mem with_mem]. by rewrite lookup_insert_eq.
  - rewrite (assign_print_ret _ a _ bs) by done.
    eexists _, _. split; [reflexivity|]. by repeat split.
Qed.

(** X11. Allocating for a non-negative [int] and printing the result
    returns, with the handle [malloc] answered: when that is a buffer
    the output gains an empty line, and when it is null the output gains
    [(null)] and a newline. *)
Theorem alloc_print_output avail n a st p st1 :
  0 <= n <= INT_MAX ->
  malloc avail (to_size_t (int_add n 1)) st = Some (p, st1) ->
  exists s st',
    alloc_print avail n a st = Some (s, st')
    /\ ptr s = p
    /\ stdout st'
       = stdout st ++ (if is_null p then null_text else []) ++ [newline].
Proof.
  intros Hn Hm. unfold alloc_print.
  apply malloc_answer in Hm; [|unfold INT_MIN, INT_MAX in *; lia].
  replace (-1 <=? n) with true in Hm by lia. cbn [andb] in Hm.
  pose proof (alloc_run avail n st
                ltac:(unfold INT_MIN, INT_MAX in *; lia) ltac:(lia)) as Hrun.
  replace (0 <=? n) with true in Hrun by lia. rewrite andb_true_r in Hrun.
  destruct (avail && (n <? INT_MAX)); subst p;
    rewrite (bind_Some _ _ _ _ _ Hrun); clear Hrun.
  - rewrite (assign_print_ret _ a _ []).
    + eexists _, _. by repeat split.
    + intros _. unfold content. cbn [ptr len is_null].
      apply (read_at_cells _ _ [] []
               (Val x00 :: replicate (Z.to_nat n) Undef)); [|done..].
      cbn [mem with_mem]. by rewrite lookup_insert_eq.
  - rewrite (assign_print_ret _ a _ []) by done.
    eexists _, _. by repeat split.
Qed.

(** X12. Concatenating two String Values with buffers, of initialised
    contents [bx] and [by_], and printing the result returns, with the
    handle [malloc] answered: when that is a buffer the output gains the
    bytes of [bx] followed by [by_] up to the first zero byte and a
    newline; when it is null the output gains [(null)] and a
    newline. *)
Theorem concat_print_output avail s1 s2 t st x y bx by_ p st1 :
  structs st !! s1 = Some x ->
  structs st !! s2 = Some y ->
  string_value st x (Val <$> bx) ->
  string_value st y (Val <$> by_) ->
  is_null (ptr x) = false ->
  is_null (ptr y) = false ->
  malloc avail (to_size_t (int_add (int_add (len x) (len y)) 1)) st
  = Some (p, st1) ->
  exists r st',
    concat_print avail s1 s2 t st = Some (r, st')
    /\ ptr r = p
    /\ stdout st'
       = stdout st
         ++ (if is_null p then null_text else until_zero (bx ++ by_))
         ++ [newline].
Proof.
  intros Hs1 Hs2 Hx Hy Hnx Hny Hm.
  pose proof Hx as [Hlx _]. pose proof Hy as [Hly _].
  apply concat_answer in Hm; [|done..].
  pose proof (concat_run avail s1 s2 st x y _ _ Hs1 Hs2 Hx Hy) as Hrun.
  unfold concat_print.
  destruct (avail && (len x + len y <? INT_MAX)); subst p.
  - destruct (concat_string_value avail s1 s2 st x y _ _ _ _
                Hs1 Hs2 Hx Hy Hrun) as (c & [_ Hc] & Hcc).
    rewrite (bind_Some _ _ _ _ _ Hrun).
    rewrite (assign_print_ret _ t _ (bx ++ by_)).
    + eexists _, _. by repeat split.
    + intros Hn. rewrite Hc, (Hcc Hn Hnx Hny). by rewrite fmap_app.
  - rewrite (bind_Some _ _ _ _ _ Hrun).
    rewrite (assign_print_ret _ t _ (bx ++ by_)) by done.
    eexists _, _. by repeat split.
Qed.

End Compose.

(** ** When the constructors succeed *)

Section Success.
Context `{Platform}.

(** X13. [fs_string_concat] on two String Values records as capacity
    the [int] sum of their lengths; when the handle of the result is not
    null that sum did not wrap, and length and capacity are both
    [len x + len y]: the buffer has no spare room. *)
Theorem concat_capacity avail s1 s2 st x y cx cy :
  structs st !! s1 = Some x ->
  structs st !! s2 = Some y ->
  string_value st x cx ->
  string_value st y cy ->
  exists r st',
    fs_string_concat avail s1 s2 st = Some (r, st')
    /\ cap r = int_add (len x) (len y)
    /\ (is_null (ptr r) = false ->
        cap r = len x + len y /\ len r = cap r).
Proof.
  intros Hs1 Hs2 Hx Hy.
  pose proof Hx as [Hlx _]. pose proof Hy as [Hly _].
  rewrite (concat_run avail s1 s2 st x y cx cy) by done.
  destruct (avail && (len x + len y <? INT_MAX)) eqn:Hok.
  - eexists _, _. split; [reflexivity|]. cbn [ptr len cap is_null].
    split; [|done]. unfold int_add.
    rewrite wrap_int_id; [done|]. unfold INT_MIN, INT_MAX in *. bounds.
  - eexists _, _. split; [reflexivity|]. by split.
Qed.

(** X14. Below [INT_MAX] bytes the only way to fail is the allocator:
    for a size, for the length of a readable literal, and for the sum
    of the lengths of two String Values, each a non-negative [int]
    smaller than [INT_MAX], the constructor returns, and with a null
    handle exactly when [malloc] had no memory. *)
Theorem null_iff_refused avail st :
  (forall n,
     0 <= n < INT_MAX ->
     exists s st', fs_string_alloc avail n st = Some (s, st')
                   /\ is_null (ptr s) = negb avail)
  /\ (forall data n vs,
        0 <= n < INT_MAX ->
        read_at st data 0 n = Some vs ->
        exists s st', fs_string_from_literal avail data n st = Some (s, st')
                      /\ is_null (ptr s) = negb avail)
  /\ (forall s1 s2 x y cx cy,
        structs st !! s1 = Some x ->
        structs st !! s2 = Some y ->
        string_value st x cx ->
        string_value st y cy ->
        len x + len y < INT_MAX ->
        exists s st', fs_string_concat avail s1 s2 st = Some (s, st')
                      /\ is_null (ptr s) = negb avail).
Proof.
  split; [|split].
  - intros n Hn.
    rewrite alloc_run by (unfold INT_MIN, INT_MAX in *; lia).
    replace (0 <=? n) with true by lia.
    replace (n <? INT_MAX) with true by lia. rewrite !andb_true_r.
    destruct avail; eexists _, _; by split.
  - intros data n vs Hn Hr.
    rewrite (from_literal_run avail data n st vs) by (done || lia).
    replace (n <? INT_MAX) with true by lia. rewrite andb_true_r.
    destruct avail; eexists _, _; by split.
  - intros s1 s2 x y cx cy Hs1 Hs2 Hx Hy Hsum.
    rewrite (concat_run avail s1 s2 st x y cx cy) by done.
    replace (len x + len y <? INT_MAX) with true by lia.
    rewrite andb_true_r.
    destruct avail; eexists _, _; by split.
Qed.

End Success.

(** ** The further properties at sample inputs *)

Ltac by_computation :=
  first [ by_evaluation
        | unfold INT_MIN, INT_MAX; simpl; lia
        | split; [vm_compute; split; discriminate | vm_compute; reflexivity]
        | vm_compute; split; discriminate ].

Lemma length_le_capacity_witness :
  exists s st',
    fs_string_alloc true 3 empty_state = Some (s, st')
    /\ len s <= cap s.
Proof.
  eexists _, _. split; [vm_compute; reflexivity|].
  eapply (length_le_capacity empty_state); [|reflexivity].
  eapply (by_alloc _ _ _ true 3); by_computation.
Defined.

Lemma failed_value_shape_witness :
  len {| ptr := None; len := 0; cap := int_add INT_MAX 1 |} = 0
  /\ overflow_state = overflow_state.
Proof.
  apply (failed_value_shape overflow_state
           {| ptr := None; len := 0; cap := int_add INT_MAX 1 |}
           overflow_state); [|reflexivity].
  apply (by_concat _ _ _ true 1%positive 2%positive null_max null_len1 [] []);
    by_computation.
Defined.

Lemma constructed_owns_buffer_witness :
  exists s st',
    fs_string_concat true 1%positive 2%positive foo_bar_state = Some (s, st')
    /\ owns_buffer foo_bar_state st' s.
Proof.
  eexists _, _. split; [vm_compute; reflexivity|].
  apply constructed_owns_buffer; [|reflexivity].
  apply (by_concat _ _ _ true 1%positive 2%positive str_foo str_bar
           [Val "f"%byte; Val "o"%byte; Val "o"%byte]
           [Val "b"%byte; Val "a"%byte; Val "r"%byte]); by_computation.
Defined.

Lemma constructed_preserves_witness :
  exists s st',
    fs_string_from_literal true (Some (1%positive, 0)) 3 foo_bar_state
    = Some (s, st')
    /\ preserves foo_bar_state st'
    /\ forall v c, string_value foo_bar_state v c -> string_value st' v c.
Proof.
  eexists _, _. split; [vm_compute; reflexivity|].
  apply (constructed_preserves foo_bar_state
           {| ptr := Some (4%positive, 0); len := 3; cap := 3 |}).
  apply (by_from_literal _ _ _ true (Some (1%positive, 0)) 3
           [Val "f"%byte; Val "o"%byte; Val "o"%byte]); by_computation.
Defined.

Lemma constructed_string_value_witness :
  exists s st',
    fs_string_alloc true 3 empty_state = Some (s, st')
    /\ exists c, string_value st' s c /\ Z.of_nat (length c) = len s.
Proof.
  eexists _, _. split; [vm_compute; reflexivity|].
  apply (constructed_string_value empty_state).
  apply (by_alloc _ _ _ true 3); by_computation.
Defined.

Lemma alloc_negative_witness :
  fs_string_alloc true (-5) empty_state
  = if true && (-5 =? -1) then None
    else Some ({| ptr := None; len := 0; cap := -5 |}, empty_state).
Proof.
  apply (alloc_negative true (-5) empty_state). by_computation.
Defined.

Lemma concat_overflow_witness :
  exists r,
    fs_string_concat true 1%positive 2%positive overflow_state
    = Some (r, overflow_state)
    /\ ptr r = None /\ len r = 0
    /\ (INT_MAX < len null_max + len null_len1 ->
        cap r = len null_max + len null_len1 - 2 ^ 32 /\ cap r < 0).
Proof.
  apply (concat_overflow true 1%positive 2%positive overflow_state
           null_max null_len1 [] []); by_computation.
Defined.

Lemma concat_null_second_witness :
  exists r st',
    fs_string_concat true 1%positive 2%positive null_second_state
    = Some (r, st')
    /\ ptr r = Some (2%positive, 0)
    /\ len r = 1 + 1
    /\ content st' r
       = Some ([Val "a"%byte]
               ++ take (Z.to_nat 1)
                    (drop (Z.to_nat 1) (fresh_cells (1 + 1))))
    /\ (1 = 0 -> content st' r = Some [Val "a"%byte])
    /\ (0 < 1 -> content st' r <> Some [Val "a"%byte]).
Proof.
  eapply (concat_null_second true 1%positive 2%positive null_second_state
            str_a null_len1 _ (2%positive, 0));
    [by_computation .. | vm_compute; reflexivity].
Defined.

Lemma print_twice_witness :
  exists t,
    with_stdout foo_bar_state ["f"; "o"; "o"; newline]%byte
    = with_stdout foo_bar_state (stdout foo_bar_state ++ t)
    /\ fs_print_string 1%positive
         (with_stdout foo_bar_state ["f"; "o"; "o"; newline]%byte)
       = Some (tt, with_stdout
                     (with_stdout foo_bar_state ["f"; "o"; "o"; newline]%byte)
                     (["f"; "o"; "o"; newline]%byte ++ t)).
Proof.
  apply (print_twice 1%positive foo_bar_state
           (with_stdout foo_bar_state ["f"; "o"; "o"; newline]%byte)).
  vm_compute. reflexivity.
Defined.

Lemma print_bounds_witness :
  exists out,
    stdout (with_stdout zero_state ["a"; newline]%byte)
    = stdout zero_state ++ out ++ [newline]
    /\ (x00 ∉ out)
    /\ (is_null (ptr str_a0b) = true -> out = null_text)
    /\ (is_null (ptr str_a0b) = false -> 0 <= len str_a0b ->
        Z.of_nat (length out) <= len str_a0b
        /\ read_at zero_state (ptr str_a0b) 0 (Z.of_nat (length out))
           = Some (Val <$> out)).
Proof.
  apply (print_bounds 1%positive zero_state str_a0b
           (with_stdout zero_state ["a"; newline]%byte));
    vm_compute; reflexivity.
Defined.

Lemma literal_print_output_witness :
  exists s st',
    literal_print true (Some (1%positive, 0)) 3 5%positive foo_bar_state
    = Some (s, st')
    /\ ptr s = Some (4%positive, 0)
    /\ stdout st'
       = stdout foo_bar_state ++ until_zero ["f"; "o"; "o"]%byte ++ [newline]
    /\ (is_null (Some (4%positive, 0)) = false ->
        x00 ∉ ["f"; "o"; "o"]%byte ->
        stdout st' = stdout foo_bar_state ++ ["f"; "o"; "o"]%byte ++ [newline]).
Proof.
  eapply (literal_print_output true (Some (1%positive, 0)) 3 5%positive
            foo_bar_state ["f"; "o"; "o"]%byte (Some (4%positive, 0)));
    [by_computation | by_computation | vm_compute; reflexivity].
Defined.

Lemma alloc_print_output_witness :
  exists s st',
    alloc_print true 0 1%positive empty_state = Some (s, st')
    /\ ptr s = Some (1%positive, 0)
    /\ stdout st' = stdout empty_state ++ [] ++ [newline].
Proof.
  eapply (alloc_print_output true 0 1%positive empty_state
            (Some (1%positive, 0)));
    [by_computation | vm_compute; reflexivity].
Defined.

Lemma concat_print_output_witness :
  exists r st',
    concat_print true 1%positive 2%positive 4%positive foo_bar_state
    = Some (r, st')
    /\ ptr r = Some (4%positive, 0)
    /\ stdout st'
       = stdout foo_bar_state
         ++ until_zero (["f"; "o"; "o"]%byte ++ ["b"; "a"; "r"]%byte)
         ++ [newline].
Proof.
  eapply (concat_print_output true 1%positive 2%positive 4%positive
            foo_bar_state str_foo str_bar _ _ (Some (4%positive, 0)));
    [by_computation .. | vm_compute; reflexivity].
Defined.

Lemma concat_capacity_witness :
  exists r st',
    fs_string_concat true 1%positive 2%positive foo_bar_state = Some (r, st')
    /\ cap r = int_add (len str_foo) (len str_bar)
    /\ (is_null (ptr r) = false ->
        cap r = len str_foo + len str_bar /\ len r = cap r).
Proof.
  apply (concat_capacity true 1%positive 2%positive foo_bar_state
           str_foo str_bar
           [Val "f"%byte; Val "o"%byte; Val "o"%byte]
           [Val "b"%byte; Val "a"%byte; Val "r"%byte]); by_computation.
Defined.

Lemma null_iff_refused_witness :
  (exists s st', fs_string_alloc true 3 empty_state = Some (s, st')
                 /\ is_null (ptr s) = negb true)
  /\ (exists s st',
        fs_string_from_literal false (Some (1%positive, 0)) 3 foo_bar_state
        = Some (s, st')
        /\ is_null (ptr s) = negb false)
  /\ (exists s st',
        fs_string_concat true 1%positive 2%positive foo_bar_state
        = Some (s, st')
        /\ is_null (ptr s) = negb true).
Proof.
  split; [|split].
  - apply (proj1 (null_iff_refused true empty_state) 3). by_computation.
  - apply (proj1 (proj2 (null_iff_refused false foo_bar_state))
             (Some (1%positive, 0)) 3
             [Val "f"%byte; Val "o"%byte; Val "o"%byte]); by_computation.
  - apply (proj2 (proj2 (null_iff_refused true foo_bar_state))
             1%positive 2%positive str_foo str_bar
             [Val "f"%byte; Val "o"%byte; Val "o"%byte]
             [Val "b"%byte; Val "a"%byte; Val "r"%byte]); by_computation.
Defined.
